(** * A shallow embedding of citrace-player (src/main.cpp)

    The playback program is modelled as follows.
    - 32-bit unsigned integers are [Z] values; every arithmetic result that
      the C++ code stores in a [uint32_t] is reduced with [u32].
    - Observable effects (diagnostic prints, hardware calls, file reads into
      memory) are recorded as a list of [event]s by a small writer/error
      monad [M]; a computation either yields a value or halts, by leaving
      the stream loop ([goto exit]) or by terminating the process.
    - The input file stream ([std::ifstream]) is a byte list with a position
      and a failure flag, with the C++11 behaviour of [seekg] and [read]. *)

From Stdlib Require Import ZArith List Bool Lia.
Import ListNotations.
Open Scope Z_scope.

Definition u32 (x : Z) : Z := x mod 2 ^ 32.

(** Conversion to [u8], as for the [u8 flags] parameter of
    [GX_ProcessCommandList]. *)
Definition u8 (x : Z) : Z := x mod 2 ^ 8.

(** ** Events and the playback monad *)

(** Messages printed over the network (format strings of the source). *)
Inductive msg :=
| MsgUnknownPaddr        (* "Unknown physical address 0x%08x\n" *)
| MsgReachedEndOfFrame   (* "Reached end of current frame\n" *)
| MsgLoadVram            (* "Load 0x%x VRAM bytes from file offset ..." *)
| MsgTransfer            (* "-> Transfer 0x%x bytes from ..." *)
| MsgLoad                (* "Load 0x%x bytes from file offset ..." *)
| MsgUnknownAddress      (* "That turned out to be an unknown address\n" *)
| MsgWriting             (* "Writing 0x.. to register 0x%08x%s%s\n" *)
| MsgWaiting             (* "Waiting for operation to finish..\n" *)
| MsgUnknownElement.     (* "Unknown stream element type %x" *)

Inductive event :=
| EvPrint (m : msg)
| EvNetworkExit
| EvSwapBuffers                     (* gfxSwapBuffersGpu *)
| EvWaitVBlank                      (* gspWaitForVBlank *)
| EvLinearAlloc (size : Z)
| EvLinearFree
| EvReadToBuffer (pos size : Z)     (* input.read(buffer, size) at file position pos *)
| EvFlushBuffer (size : Z)          (* GSPGPU_FlushDataCache(buffer, size) *)
| EvDma (vaddr size : Z)            (* GX_RequestDma(buffer, vaddr, size) *)
| EvWaitDma                         (* gspWaitForDMA *)
| EvReadToMemory (pos vaddr size : Z) (* input.read(dest, size) at file position pos *)
| EvFlush (vaddr size : Z)          (* GSPGPU_FlushDataCache(dest, size) *)
| EvReadHWRegs (reg : Z)            (* GSPGPU_ReadHWRegs(reg, .., 4) *)
| EvWriteHWRegs (reg data size : Z) (* GSPGPU_WriteHWRegs(reg, &data, size) *)
| EvProcessCommandList (vaddr size flags : Z) (* GX_ProcessCommandList(buf, size, flags) *)
| EvSleep (ns : Z).                 (* svcSleepThread *)

(** How a computation stops early. *)
Inductive halt :=
| HExit        (* [goto exit]: the playback session ends *)
| HTerminate   (* the process is terminated ([std::terminate]) *)
| HFuel.       (* a bounded loop of the model ran out of fuel *)

Definition M (A : Type) : Type := (list event * (A + halt))%type.

Definition ret {A} (a : A) : M A := ([], inl a).
Definition stop {A} (h : halt) : M A := ([], inr h).
Definition emit (e : event) : M unit := ([e], inl tt).
Definition bind {A B} (m : M A) (f : A -> M B) : M B :=
  match m with
  | (l, inl a) => let (l', r) := f a in (l ++ l', r)
  | (l, inr h) => (l, inr h)
  end.

Notation "x <- m ;; k" := (bind m (fun x => k))
  (at level 61, m at next level, right associativity).
Notation "m ;;; k" := (bind m (fun _ => k))
  (at level 61, right associativity).

(** ** Memory map (the two anonymous enums) *)

Definition IO_AREA_PADDR := 0x10100000.
Definition IO_AREA_SIZE := 0x01000000.
Definition IO_AREA_PADDR_END := IO_AREA_PADDR + IO_AREA_SIZE.
Definition VRAM_PADDR := 0x18000000.
Definition VRAM_SIZE := 0x00600000.
Definition VRAM_PADDR_END := VRAM_PADDR + VRAM_SIZE.
Definition DSP_RAM_PADDR := 0x1FF00000.
Definition DSP_RAM_SIZE := 0x00080000.
Definition DSP_RAM_PADDR_END := DSP_RAM_PADDR + DSP_RAM_SIZE.
Definition FCRAM_PADDR := 0x20000000.
Definition FCRAM_SIZE := 0x08000000.
Definition FCRAM_PADDR_END := FCRAM_PADDR + FCRAM_SIZE.

Definition IO_AREA_VADDR := 0x1EC00000.
Definition VRAM_VADDR := 0x1F000000.
Definition DSP_RAM_VADDR := 0x1FF00000.

Definition FCRAMStartVAddr : Z := 0x14000000.

Definition in_range (lo hi a : Z) : bool := (lo <=? a) && (a <? hi).

(** [PhysicalToVirtualAddress]: an address in no region prints a
    diagnostic, closes the network channel and terminates the process. *)
Definition PhysicalToVirtualAddress (physical_address : Z) : M Z :=
  if physical_address =? 0 then ret 0
  else if in_range VRAM_PADDR VRAM_PADDR_END physical_address then
    ret (u32 (physical_address - VRAM_PADDR + VRAM_VADDR))
  else if in_range FCRAM_PADDR FCRAM_PADDR_END physical_address then
    ret (u32 (physical_address - FCRAM_PADDR + FCRAMStartVAddr))
  else if in_range DSP_RAM_PADDR DSP_RAM_PADDR_END physical_address then
    ret (u32 (physical_address - DSP_RAM_PADDR + DSP_RAM_VADDR))
  else if in_range IO_AREA_PADDR IO_AREA_PADDR_END physical_address then
    ret (u32 (physical_address - IO_AREA_PADDR + IO_AREA_VADDR))
  else
    emit (EvPrint MsgUnknownPaddr) ;;; emit EvNetworkExit ;;; stop HTerminate.

(** The declared regions, in the order the translation tests them, with
    their physical bounds and their physical-to-virtual delta. *)
Definition regions : list (Z * Z * Z) :=
  [ (VRAM_PADDR, VRAM_PADDR_END, VRAM_VADDR - VRAM_PADDR);
    (FCRAM_PADDR, FCRAM_PADDR_END, FCRAMStartVAddr - FCRAM_PADDR);
    (DSP_RAM_PADDR, DSP_RAM_PADDR_END, DSP_RAM_VADDR - DSP_RAM_PADDR);
    (IO_AREA_PADDR, IO_AREA_PADDR_END, IO_AREA_VADDR - IO_AREA_PADDR) ].

(** The first region of [rs] containing [a]. *)
Fixpoint first_region (rs : list (Z * Z * Z)) (a : Z) : option (Z * Z * Z) :=
  match rs with
  | [] => None
  | (lo, hi, d) :: rs' => if in_range lo hi a then Some (lo, hi, d) else first_region rs' a
  end.

(** ** Stream elements *)

(** [CTRegisterWrite::size]. *)
Inductive reg_size := SIZE_8 | SIZE_16 | SIZE_32 | SIZE_64 | SIZE_OTHER (raw : Z).

(** [CTStreamElement], by its type tag; [UnknownElement] is any other tag. *)
Inductive stream_element :=
| FrameMarker
| MemoryLoad (file_offset physical_address size : Z)
| RegisterWrite (physical_address : Z) (size : reg_size) (value : Z)
| UnknownElement (type : Z).

(** ** Playback of one stream element (the body of the [for] loop in [main]) *)

Definition TransferBufferSize : Z := 1024.

(** The DMA transfer loop of a VRAM memory load. [remaining] and [addr]
    are the loop variables of the source, [pos] is the position of the file
    stream (each [input.read] of [size] bytes moves it by [size]). [fuel]
    bounds the number of iterations; [MemoryLoad] gives enough of it. *)
Fixpoint dma_loop (fuel : nat) (remaining addr pos : Z) : M unit :=
  match fuel with
  | O => stop HFuel
  | S fuel' =>
      let size := Z.min TransferBufferSize remaining in
      _ <- PhysicalToVirtualAddress addr ;;
      emit (EvPrint MsgTransfer) ;;;
      emit (EvReadToBuffer pos size) ;;;
      emit (EvFlushBuffer size) ;;;
      va <- PhysicalToVirtualAddress addr ;;
      emit (EvDma va size) ;;;
      emit EvWaitDma ;;;
      if remaining <=? TransferBufferSize then ret tt
      else dma_loop fuel' (remaining - TransferBufferSize)
                          (u32 (addr + TransferBufferSize)) (pos + size)
  end.

Definition dma_fuel (size : Z) : nat := S (Z.to_nat (size / TransferBufferSize)).

Definition memory_load (file_offset physical_address size : Z) : M unit :=
  if in_range VRAM_PADDR VRAM_PADDR_END physical_address then
    emit (EvLinearAlloc TransferBufferSize) ;;;
    _ <- PhysicalToVirtualAddress physical_address ;;
    emit (EvPrint MsgLoadVram) ;;;
    dma_loop (dma_fuel size) size physical_address file_offset ;;;
    emit EvLinearFree
  else
    _ <- PhysicalToVirtualAddress physical_address ;;
    emit (EvPrint MsgLoad) ;;;
    dest <- PhysicalToVirtualAddress physical_address ;;
    if dest =? 0 then emit (EvPrint MsgUnknownAddress)
    else emit (EvReadToMemory file_offset dest size) ;;; emit (EvFlush dest size).

(** The completion poll [do { ... } while (count++ < 100)]; [left] is
    [100 - count], the number of further iterations the [while] test
    still allows. [rd k] is the value returned by the [k]-th hardware
    register read of the element. *)
Definition low_bit_set (val : Z) : bool := negb (Z.land val 1 =? 0).

Fixpoint poll_loop (left : nat) (reg : Z) (rd : nat -> Z) (k : nat) : M unit :=
  emit (EvReadHWRegs reg) ;;;
  if low_bit_set (rd k) then ret tt
  else
    emit (EvSleep 1000) ;;;
    match left with
    | O => ret tt
    | S left' => poll_loop left' reg rd (S k)
    end.

Definition poll (reg : Z) (rd : nat -> Z) (k : nat) : M unit := poll_loop 100 reg rd k.

Definition size_bytes (s : reg_size) : Z :=
  match s with
  | SIZE_8 => 1 | SIZE_16 => 2 | SIZE_32 => 4 | SIZE_64 => 8 | SIZE_OTHER _ => 0
  end.

(** Register offset passed to GSPGPU_Read/WriteHWRegs. *)
Definition hw_reg (physical_address : Z) : Z :=
  u32 (physical_address - 0x10100000 + 0x1EC00000 - 0x1EB00000).

Definition is_trigger_register (pa : Z) : bool :=
  (pa =? 0x1040001C) || (pa =? 0x1040002C) || (pa =? 0x10400C18) || (pa =? 0x104018F0).

Definition register_write (rd : nat -> Z) (physical_address : Z) (rsize : reg_size)
    (value : Z) : M unit :=
  let size := size_bytes rsize in
  let data := Z.land value 0xFFFFFFFF in
  (* [debug_strings.at(size)] throws [std::out_of_range] for size 0 *)
  (if size <=? 4 then
     (if (size =? 1) || (size =? 2) || (size =? 4) then emit (EvPrint MsgWriting)
      else stop HTerminate)
   else emit (EvPrint MsgWriting)) ;;;
  k <- (if physical_address =? 0x104018F0 then
          emit (EvReadHWRegs (hw_reg 0x104018E0)) ;;;
          emit (EvReadHWRegs (hw_reg 0x104018E8)) ;;;
          let csize := rd 0%nat in
          let caddr := rd 1%nat in
          va <- PhysicalToVirtualAddress (u32 (caddr * 8)) ;;
          emit (EvProcessCommandList va csize (u8 value)) ;;;
          ret 2%nat
        else
          emit (EvWriteHWRegs (hw_reg physical_address) data size) ;;;
          ret 0%nat) ;;
  if is_trigger_register physical_address then
    emit (EvPrint MsgWaiting) ;;; poll (hw_reg physical_address) rd k
  else ret tt.

Definition step_element (rd : nat -> Z) (e : stream_element) : M unit :=
  match e with
  | FrameMarker =>
      emit (EvPrint MsgReachedEndOfFrame) ;;; emit EvSwapBuffers ;;; emit EvWaitVBlank
  | MemoryLoad off pa size => memory_load off pa size
  | RegisterWrite pa s v => register_write rd pa s v
  | UnknownElement _ => emit (EvPrint MsgUnknownElement) ;;; stop HExit
  end.

(** The loop over the stream: [key_start i] tells whether START is down at
    the check before element [i]; [rds i] are the hardware register values
    read during element [i]. *)
Fixpoint run_stream (key_start : nat -> bool) (rds : nat -> nat -> Z) (i : nat)
    (elems : list stream_element) : M unit :=
  match elems with
  | [] => ret tt
  | e :: es =>
      if key_start i then stop HExit
      else step_element (rds i) e ;;; run_stream key_start rds (S i) es
  end.

(** ** The input file stream *)

(** [std::ifstream]: file bytes, read position, and the failure flag
    (failbit; a short read sets it together with eofbit). *)
Record istream := { data : list Z; pos : Z; failed : bool }.

(** C++11 [seekg]: does nothing once the stream has failed. *)
Definition seekg (s : istream) (off : Z) : istream :=
  if failed s then s else {| data := data s; pos := off; failed := false |}.

(** [read(buf, n)]: returns the bytes extracted; a short read extracts what
    is left and fails the stream; a failed stream extracts nothing. *)
Definition read (s : istream) (n : nat) : istream * list Z :=
  if failed s then (s, [])
  else
    let avail := skipn (Z.to_nat (pos s)) (data s) in
    if (n <=? length avail)%nat
    then ({| data := data s; pos := pos s + Z.of_nat n; failed := false |}, firstn n avail)
    else ({| data := data s; pos := Z.of_nat (length (data s)); failed := true |}, avail).

(** The buffer after a read: the extracted bytes overwrite its prefix. *)
Definition overwrite (old got : list Z) : list Z := got ++ skipn (length got) old.

(** Little-endian 32-bit words. *)
Definition le32 (bs : list Z) : Z := fold_right (fun b acc => b + 256 * acc) 0 (firstn 4 bs).
Definition bytes32 (w : Z) : list Z :=
  [w mod 256; (w / 256) mod 256; (w / 65536) mod 256; (w / 16777216) mod 256].

(** [input.read((char* )&w, sizeof(uint32_t))] into a word holding [old]. *)
Definition read_word (s : istream) (old : Z) : istream * Z :=
  let (s', got) := read s 4 in (s', le32 (overwrite (bytes32 old) got)).

(** [input.read((char* )values, sizeof(values))] into [uint32_t values[4]]
    whose previous contents are the 16 bytes [old]. *)
Definition read_values (s : istream) (old : list Z) : istream * (Z * Z * Z * Z) :=
  let (s', got) := read s 16 in
  let b := overwrite old got in
  (s', (le32 b, le32 (skipn 4 b), le32 (skipn 8 b), le32 (skipn 12 b))).

(** ** The 4-to-3 float24 packing *)

Definition pack4 (v0 v1 v2 v3 : Z) : list Z :=
  [ u32 (Z.lor (Z.shiftl v3 8) (Z.land (Z.shiftr v2 16) 0xFF));
    u32 (Z.lor (Z.shiftl (Z.land v2 0xFFFF) 16) (Z.land (Z.shiftr v1 8) 0xFFFF));
    u32 (Z.lor (Z.shiftl (Z.land v1 0xFF) 24) (Z.land v0 0xFFFFFF)) ].

Definition pack_values (v : Z * Z * Z * Z) : list Z :=
  let '(v0, v1, v2, v3) := v in pack4 v0 v1 v2 v3.

(** ** The trace header ([CiTrace::CTHeader], fields used by [main]) *)

Record CTHeader := {
  stream_offset : Z; stream_size : Z;
  gpu_registers : Z; gpu_registers_size : Z;
  pica_registers : Z; pica_registers_size : Z;
  default_attributes : Z; default_attributes_size : Z;
  vs_program_binary : Z; vs_program_binary_size : Z;
  vs_swizzle_data : Z; vs_swizzle_data_size : Z;
  vs_float_uniforms : Z; vs_float_uniforms_size : Z;
  gs_program_binary : Z; gs_program_binary_size : Z;
  gs_swizzle_data : Z; gs_swizzle_data_size : Z;
  gs_float_uniforms : Z; gs_float_uniforms_size : Z }.

(** ** [pica_register_state_mask] *)

Definition zseq (n : nat) : list Z := map Z.of_nat (seq 0 n).

(** The assignments of the initialising lambda, in order. *)
Definition mask_assignments : list (Z * Z) :=
  [(0x40, 0x1); (0x41, 0x7); (0x43, 0x7); (0x4d, 0x7); (0x4e, 0x7)]
  ++ map (fun i => (0x50 + i, 0xF)) (zseq 7)
  ++ [(0x68, 0xF);
      (0x80, 0x1); (0x82, 0xF); (0x83, 0xF); (0x85, 0xF); (0x8e, 0x1);
      (0x92, 0xF); (0x93, 0xF); (0x95, 0xF); (0x96, 0x1);
      (0x9a, 0xF); (0x9b, 0xF); (0x9d, 0xF); (0x9e, 0x1)]
  ++ flat_map (fun i => [(0xc0 + i, 0xF); (0xc8 + i, 0xF); (0xd0 + i, 0xF);
                         (0xd8 + i, 0xF); (0xf0 + i, 0xF); (0xf8 + i, 0xF)]) (zseq 5)
  ++ [(0xe0, 0xF); (0xfd, 0xF);
      (0x100, 0xF); (0x101, 0xF); (0x102, 0xF); (0x103, 0xF); (0x104, 0xF); (0x106, 0xF);
      (0x116, 0xF); (0x117, 0xF); (0x11c, 0xF); (0x11d, 0xF); (0x11e, 0xF);
      (0x200, 0xF); (0x201, 0xF); (0x202, 0xF)]
  ++ flat_map (fun i => [(0x203 + 3 * i, 0xF); (0x204 + 3 * i, 0xF);
                         (0x205 + 3 * i, 0xF)]) (zseq 12)
  ++ [(0x227, 0xF); (0x228, 0xF); (0x25e, 0xF);
      (0x2b0, 0xF); (0x2b1, 0xF); (0x2b2, 0xF); (0x2b3, 0xF); (0x2b4, 0xF);
      (0x2ba, 0xF); (0x2bb, 0xF); (0x2bc, 0xF); (0x2c0, 0xF); (0x2cb, 0xF); (0x2d5, 0xF)].

Definition pica_register_state_mask_size : Z := 0x300.

(** [pica_register_state_mask[regid]] for an index [0 <= regid < 0x300]
    of the array: the value of the last assignment to [regid], 0 when there
    is none. The program indexes the array only there (the snapshot loop
    stops below [min(0x300, pica_registers_size)]); the value given at
    other indexes is never used. *)
Definition pica_register_state_mask (regid : Z) : Z :=
  fold_left (fun acc '(i, v) => if i =? regid then v else acc) mask_assignments 0.

(** [ret[i] = v] on the array; every index the initialiser writes is below
    0x300. *)
Definition array_set (arr : list Z) (i v : Z) : list Z :=
  firstn (Z.to_nat i) arr ++ v :: skipn (S (Z.to_nat i)) arr.

(** The array [ret] of the initialising lambda: 0x300 zero bytes
    ([std::array<uint8_t, 0x300> ret{}]), then the assignments in order. *)
Definition pica_register_state_mask_array : list Z :=
  fold_left (fun arr '(i, v) => array_set arr i v) mask_assignments
            (repeat 0 (Z.to_nat pica_register_state_mask_size)).

(** ** The initial-state command list *)

Section InitialState.

(** The indeterminate contents of the uninitialised locals
    [uint32_t values[4]] (16 bytes) and [uint32_t value]. *)
Variable indet_values : list Z.
Variable indet_value : Z.

(** Builder state: the file stream and [command_list]. *)
Definition bstate : Type := (istream * list Z)%type.

Definition push_back (w : Z) (st : bstate) : bstate := (fst st, snd st ++ [w]).

(** One iteration of the default-attribute loop, for slot [i]. *)
Definition default_attribute_slot (h : CTHeader) (i : Z) (st : bstate) : bstate :=
  let '(s, cl) := st in
  let cl := cl ++ [i; Z.lor (Z.lor 0x232 0xF0000) (Z.shiftl 3 20)] in
  let s := seekg s (default_attributes h) in
  let '(s, values) := read_values s indet_values in
  (s, cl ++ pack_values values).

Definition default_attributes_loop (h : CTHeader) (st : bstate) : bstate :=
  fold_left (fun st i => default_attribute_slot h i st)
            (zseq (Z.to_nat (default_attributes_size h / 4))) st.

(** The data command header [(id + 1) | 0xF0000 | (len << 20)]. *)
Definition data_header (pica_register_id len : Z) : Z :=
  u32 (Z.lor (Z.lor (pica_register_id + 1) 0xF0000) (Z.shiftl (u32 len) 20)).

(** The float-uniform loop [for (index = 1; index < num_words / 4; ++index)]. *)
Fixpoint float_loop (iters : nat) (hdr : Z) (command_written : bool) (st : bstate)
    : bstate :=
  match iters with
  | O => st
  | S iters' =>
      let '(s, cl) := st in
      let '(s, values) := read_values s indet_values in
      let ws := pack_values values in
      let cl := cl ++ [nth 0 ws 0] ++ (if command_written then [] else [hdr])
                   ++ [nth 1 ws 0; nth 2 ws 0] in
      float_loop iters' hdr true (s, cl)
  end.

(** The raw-word loop [for (index = 1; index < num_words; ++index)]. *)
Fixpoint word_loop (iters : nat) (st : bstate) : bstate :=
  match iters with
  | O => st
  | S iters' =>
      let '(s, cl) := st in
      let '(s, w) := read_word s 0 in
      word_loop iters' (s, cl ++ [w])
  end.

Definition SubmitInternalMemory (file_offset num_words pica_register_id : Z)
    (is_float_uniform : bool) (st : bstate) : bstate :=
  if num_words =? 0 then st
  else
    let '(s, cl) := st in
    let cl := cl ++ [0; Z.lor pica_register_id 0xF0000] in
    let s := seekg s file_offset in
    if is_float_uniform then
      float_loop (Z.to_nat (num_words / 4) - 1)
                 (data_header pica_register_id (num_words / 4 * 3 - 1)) false (s, cl)
    else
      let '(s, w) := read_word s 0 in
      let cl := cl ++ [w; data_header pica_register_id (num_words - 1)] in
      word_loop (Z.to_nat num_words - 1) (s, cl).

(** The register snapshot loop, from register [regid] on. *)
Fixpoint pica_loop (iters : nat) (regid : Z) (st : bstate) : bstate :=
  match iters with
  | O => st
  | S iters' =>
      let '(s, cl) := st in
      let '(s, value) := read_word s indet_value in
      let m := pica_register_state_mask regid in
      let cl := if m =? 0 then cl else cl ++ [value; Z.lor regid (Z.shiftl m 16)] in
      pica_loop iters' (regid + 1) (s, cl)
  end.

Definition pica_registers_load (h : CTHeader) (st : bstate) : bstate :=
  let '(s, cl) := st in
  let s := seekg s (pica_registers h) in
  pica_loop (Z.to_nat (Z.min pica_register_state_mask_size (pica_registers_size h)))
            0 (s, cl).

(** Everything before the padding loop. *)
Definition initial_commands (h : CTHeader) (s : istream) : bstate :=
  let st := default_attributes_loop h (s, []) in
  let st := SubmitInternalMemory (gs_program_binary h) (gs_program_binary_size h) 0x29b false st in
  let st := SubmitInternalMemory (gs_swizzle_data h) (gs_swizzle_data_size h) 0x2a5 false st in
  let st := SubmitInternalMemory (gs_float_uniforms h) (gs_float_uniforms_size h) 0x290 true st in
  let st := SubmitInternalMemory (vs_program_binary h) (vs_program_binary_size h) 0x2cb false st in
  let st := SubmitInternalMemory (vs_swizzle_data h) (vs_swizzle_data_size h) 0x2d5 false st in
  let st := SubmitInternalMemory (vs_float_uniforms h) (vs_float_uniforms_size h) 0x2c0 true st in
  pica_registers_load h st.

End InitialState.

(** The padding loop [while (command_list.size() % 4 != 0)], run for at
    most [fuel] tests of its condition; [None] means the loop is still
    running when the fuel is spent. [nth]'s default stands for an
    out-of-range index of the source. *)
Fixpoint pad_loop (fuel : nat) (cl : list Z) : option (list Z) :=
  match fuel with
  | O => None
  | S fuel' =>
      if Z.of_nat (length cl) mod 4 =? 0 then Some cl
      else
        let cl1 := cl ++ [nth (length cl - 2) cl 0] in
        let cl2 := cl1 ++ [nth (length cl1 - 2) cl1 0] in
        pad_loop fuel' cl2
  end.

(** The initial-state command list after padding. *)
Definition build_command_list (indet_values : list Z) (indet_value : Z) (fuel : nat)
    (h : CTHeader) (s : istream) : option (list Z) :=
  pad_loop fuel (snd (initial_commands indet_values indet_value h s)).

(** Reading the stream into [std::vector<CTStreamElement> stream(stream_size)]:
    records of [elem_size] bytes, each created zero-filled. *)
Fixpoint read_records (elem_size : nat) (n : nat) (s : istream) : istream * list (list Z) :=
  match n with
  | O => (s, [])
  | S n' =>
      let '(s, got) := read s elem_size in
      let '(s, rest) := read_records elem_size n' s in
      (s, overwrite (repeat 0 elem_size) got :: rest)
  end.

Definition load_stream (elem_size : nat) (h : CTHeader) (s : istream)
    : istream * list (list Z) :=
  read_records elem_size (Z.to_nat (stream_size h)) (seekg s (stream_offset h)).

(** [main] from the header check to the start of playback, for a stream
    [s] positioned after a successfully read header: [Some (stream,
    command_list)] when playback starts, [None] when the padding loop has
    not finished within [fuel] tests. *)
Definition prologue (elem_size : nat) (indet_values : list Z) (indet_value : Z) (fuel : nat)
    (h : CTHeader) (s : istream) : option (list (list Z) * list Z) :=
  let '(s, stream) := load_stream elem_size h s in
  match build_command_list indet_values indet_value fuel h s with
  | Some cl => Some (stream, cl)
  | None => None
  end.

(** The unpacking of the 4-to-3 transform: three packed words back into
    four 24-bit lanes [(u0, u1, u2, u3)]. *)
Definition unpack3 (w0 w1 w2 : Z) : Z * Z * Z * Z :=
  ( Z.land w2 0xFFFFFF,
    Z.lor (Z.shiftl (Z.land w1 0xFFFF) 8) (Z.shiftr w2 24),
    Z.lor (Z.shiftl (Z.land w0 0xFF) 16) (Z.shiftr w1 16),
    Z.shiftr w0 8 ).

Definition unpack_words (ws : list Z) : Z * Z * Z * Z :=
  unpack3 (nth 0 ws 0) (nth 1 ws 0) (nth 2 ws 0).

(** ** Proof automation *)

Ltac bool_facts :=
  repeat match goal with
  | H : (_ =? _) = true |- _ => apply Z.eqb_eq in H
  | H : (_ =? _) = false |- _ => apply Z.eqb_neq in H
  | H : (_ <=? _) = true |- _ => apply Z.leb_le in H
  | H : (_ <=? _) = false |- _ => apply Z.leb_gt in H
  | H : (_ <? _) = true |- _ => apply Z.ltb_lt in H
  | H : (_ <? _) = false |- _ => apply Z.ltb_ge in H
  | H : (_ && _)%bool = true |- _ => apply andb_prop in H; destruct H
  end.

(** Rewrite bits of bitwise operations down to bits of the operands,
    settling comparisons of bit indices and bits at negative indices. *)
Ltac settle_bits :=
  repeat (first
    [ rewrite Z.lor_spec | rewrite Z.land_spec
    | rewrite Z.shiftl_spec by lia | rewrite Z.shiftr_spec by lia
    | rewrite Z.testbit_ones by lia
    | match goal with
      | |- context [?a <=? ?b] =>
          first [ rewrite (proj2 (Z.leb_le a b)) by lia
                | rewrite (proj2 (Z.leb_gt a b)) by lia ]
      | |- context [?a <? ?b] =>
          first [ rewrite (proj2 (Z.ltb_lt a b)) by lia
                | rewrite (proj2 (Z.ltb_ge a b)) by lia ]
      | |- context [Z.testbit ?v ?i] => rewrite (Z.testbit_neg_r v i) by lia
      end ]);
  rewrite ?andb_true_l, ?andb_false_l, ?andb_true_r, ?andb_false_r,
          ?orb_false_l, ?orb_false_r.

Ltac expand_bits :=
  unfold u32; rewrite <- ?Z.land_ones by lia;
  apply Z.bits_inj'; intros ?n ?Hn;
  change 0xFF with (Z.ones 8); change 0xFFFF with (Z.ones 16);
  change 0xFFFFFF with (Z.ones 24).

Ltac split_lanes n :=
  destruct (Z.lt_ge_cases n 8);
  [ | destruct (Z.lt_ge_cases n 16);
      [ | destruct (Z.lt_ge_cases n 24); [ | destruct (Z.lt_ge_cases n 32)]]].

(** The events of a poll that reads [m + 1] times, starting with the
    [k]-th register read of the element: [m] reads with the low bit clear,
    each followed by a sleep, then a last read, followed by a sleep when
    its low bit is clear. *)
Definition poll_trace (reg : Z) (rd : nat -> Z) (k m : nat) : list event :=
  concat (repeat [EvReadHWRegs reg; EvSleep 1000] m)
  ++ [EvReadHWRegs reg]
  ++ (if low_bit_set (rd (k + m)%nat) then [] else [EvSleep 1000]).

Definition is_read_of (reg : Z) (e : event) : bool :=
  match e with EvReadHWRegs r => r =? reg | _ => false end.

Definition count_reads (reg : Z) (evs : list event) : nat :=
  length (filter (is_read_of reg) evs).

(** The chunks of a VRAM memory load, as (file position, physical
    destination, size) triples: [n] chunks, the [k]-th at [1024 * k] past
    the start, all of 1024 bytes but the last, which holds the rest. *)
Definition chunk_list (pos addr remaining : Z) (n : nat) : list (Z * Z * Z) :=
  map (fun k => (pos + TransferBufferSize * Z.of_nat k,
                 addr + TransferBufferSize * Z.of_nat k,
                 if (k + 1 =? n)%nat then remaining - TransferBufferSize * Z.of_nat (n - 1)
                 else TransferBufferSize))
      (seq 0 n).

Definition nchunks (size : Z) : nat :=
  if size <=? TransferBufferSize then 1%nat
  else Z.to_nat ((size + TransferBufferSize - 1) / TransferBufferSize).

Definition chunk_size (c : Z * Z * Z) : Z := let '(_, _, sz) := c in sz.

(** The events of one chunk: log line, read into the buffer, flush, DMA to
    the translated VRAM address, wait. *)
Definition chunk_events (c : Z * Z * Z) : list event :=
  let '(p, a, sz) := c in
  [EvPrint MsgTransfer; EvReadToBuffer p sz; EvFlushBuffer sz;
   EvDma (a - VRAM_PADDR + VRAM_VADDR) sz; EvWaitDma].

Definition sum_list (l : list Z) : Z := fold_right Z.add 0 l.

(** The four little-endian words stored at byte offset [off] of a file. *)
Definition source_values (d : list Z) (off : Z) : Z * Z * Z * Z :=
  let b := firstn 16 (skipn (Z.to_nat off) d) in
  (le32 b, le32 (skipn 4 b), le32 (skipn 8 b), le32 (skipn 12 b)).

(** A header whose other offsets and sizes are all 0. *)
Definition mk_header (so ss da das : Z) : CTHeader :=
  {| stream_offset := so; stream_size := ss;
     gpu_registers := 0; gpu_registers_size := 0;
     pica_registers := 0; pica_registers_size := 0;
     default_attributes := da; default_attributes_size := das;
     vs_program_binary := 0; vs_program_binary_size := 0;
     vs_swizzle_data := 0; vs_swizzle_data_size := 0;
     vs_float_uniforms := 0; vs_float_uniforms_size := 0;
     gs_program_binary := 0; gs_program_binary_size := 0;
     gs_swizzle_data := 0; gs_swizzle_data_size := 0;
     gs_float_uniforms := 0; gs_float_uniforms_size := 0 |}.

(** ** Further definitions *)

(** The two physical regions of the memory map that the translation does
    not handle. *)
Definition MPCORE_RAM_PADDR := 0x17E00000.
Definition MPCORE_RAM_SIZE := 0x00002000.
Definition MPCORE_RAM_PADDR_END := MPCORE_RAM_PADDR + MPCORE_RAM_SIZE.
Definition AXI_WRAM_PADDR := 0x1FF80000.
Definition AXI_WRAM_SIZE := 0x00080000.
Definition AXI_WRAM_PADDR_END := AXI_WRAM_PADDR + AXI_WRAM_SIZE.

(** [std::vector<uint32_t> gpu_regs(gpu_registers_size)], each word
    value-initialised to 0, then filled by [input.read] one word at a time
    after [input.seekg(gpu_registers)]. *)
Definition load_gpu_regs (h : CTHeader) (s : istream) : istream * list Z :=
  word_loop (Z.to_nat (gpu_registers_size h)) (seekg s (gpu_registers h), []).

(** "Set up command list parameters": the two [GSPGPU_WriteHWRegs] of
    [gpu_regs[0x18E0 / 4]] and [gpu_regs[0x18E8 / 4]]. Indexing past the
    end of the vector is undefined behaviour, [None] here. *)
Definition command_list_parameters (h : CTHeader) (s : istream)
    : option (istream * list event) :=
  let '(s, gpu_regs) := load_gpu_regs h s in
  match nth_error gpu_regs (Z.to_nat (0x18E0 / 4)), nth_error gpu_regs (Z.to_nat (0x18E8 / 4)) with
  | Some sz, Some addr =>
      Some (s, [EvWriteHWRegs (hw_reg 0x104018E0) sz 4; EvWriteHWRegs (hw_reg 0x104018E8) addr 4])
  | _, _ => None
  end.

(** The little-endian word stored at byte offset [off] of a file. *)
Definition file_word (d : list Z) (off : Z) : Z := le32 (skipn (Z.to_nat off) d).

(** [n] consecutive integers from [a]. *)
Definition zrange (a : Z) (n : nat) : list Z := map (fun k => a + Z.of_nat k) (seq 0 n).

(** Words appended by [SubmitInternalMemory] for [num_words] raw words and
    for [num_words] float-uniform words. *)
Definition raw_words (num_words : Z) : nat :=
  if num_words =? 0 then 0 else (Z.to_nat num_words + 3)%nat.

Definition float_words (num_words : Z) : nat :=
  if num_words =? 0 then 0
  else if (Z.to_nat (num_words / 4) <=? 1)%nat then 2%nat
  else (3 * Z.to_nat (num_words / 4))%nat.

(** The number of registers below [n] with a non-zero state mask. *)
Definition stateful_count (n : nat) : nat :=
  length (filter (fun r => negb (pica_register_state_mask r =? 0)) (zseq n)).

(** The registers the comments of the mask initialiser call active, read
    literally: "0x22e+0x22f", "0x2c1-0x2c8", "0x2cc-0x2d4" and
    "0x2c6-0x2dd". *)
Definition active_registers : list Z :=
  [0x22e; 0x22f] ++ zrange 0x2c1 8 ++ zrange 0x2cc 9 ++ zrange 0x2c6 24.

(** Events that read from the trace file. *)
Definition reads_file (e : event) : bool :=
  match e with EvReadToBuffer _ _ | EvReadToMemory _ _ _ => true | _ => false end.

(** A stage of the command-list construction that, on a failed stream,
    leaves the stream as it is and appends words that depend neither on the
    file's bytes nor on the read position. *)
Definition keeps_failed (f : bstate -> bstate) : Prop :=
  forall s cl, failed s = true ->
    fst (f (s, cl)) = s /\ forall s', failed s' = true -> snd (f (s', cl)) = snd (f (s, cl)).

Ltac unfold_map :=
  unfold VRAM_PADDR_END, VRAM_PADDR, VRAM_SIZE, VRAM_VADDR,
         FCRAM_PADDR_END, FCRAM_PADDR, FCRAM_SIZE, FCRAMStartVAddr,
         DSP_RAM_PADDR_END, DSP_RAM_PADDR, DSP_RAM_SIZE, DSP_RAM_VADDR,
         IO_AREA_PADDR_END, IO_AREA_PADDR, IO_AREA_SIZE, IO_AREA_VADDR,
         MPCORE_RAM_PADDR_END, MPCORE_RAM_PADDR, MPCORE_RAM_SIZE,
         AXI_WRAM_PADDR_END, AXI_WRAM_PADDR, AXI_WRAM_SIZE in *.

(** Case analysis on the tests of a chain of [if]s, one test at a time. *)
Ltac split_ifs :=
  repeat (match goal with
          | |- context [if ?c then _ else _] => let E := fresh "E" in destruct c eqn:E
          end; cbn beta iota);
  repeat match goal with
  | E : in_range _ _ _ = true |- _ =>
      unfold in_range in E; apply andb_prop in E; destruct E as [?E ?E]
  | E : in_range _ _ _ = false |- _ =>
      unfold in_range in E; apply andb_false_iff in E
  | E : (_ <=? _) = true |- _ => apply Z.leb_le in E
  | E : (_ <=? _) = false |- _ => apply Z.leb_gt in E
  | E : (_ <? _) = true |- _ => apply Z.ltb_lt in E
  | E : (_ <? _) = false |- _ => apply Z.ltb_ge in E
  | E : (_ \/ _) |- _ => destruct E as [E | E]
  | E : (_ =? _) = true |- _ => apply Z.eqb_eq in E
  | E : (_ =? _) = false |- _ => apply Z.eqb_neq in E
  end.

Fixpoint nodupb (l : list Z) : bool :=
  match l with
  | [] => true
  | x :: l' => negb (existsb (Z.eqb x) l') && nodupb l'
  end.

Definition snapshot_words (d : list Z) (off regid : Z) (n : nat) : list Z :=
  flat_map (fun r => let m := pica_register_state_mask r in
                     if m =? 0 then []
                     else [file_word d (off + 4 * (r - regid)); Z.lor r (Z.shiftl m 16)])
           (zrange regid n).

(** * Theorems *)

Lemma in_range_true lo hi a : in_range lo hi a = true <-> lo <= a < hi.
Proof. unfold in_range; rewrite andb_true_iff, Z.leb_le, Z.ltb_lt; tauto. Qed.

Lemma u32_small x : 0 <= x < 2 ^ 32 -> u32 x = x.
Proof. intros; unfold u32; apply Z.mod_small; assumption. Qed.

(** C6: address 0 translates to 0; a non-zero physical address whose first
    containing region (in the order VRAM, FCRAM, DSP RAM, IO area) is
    [(lo, hi, d)] translates, with no diagnostic, to [pa + d], which is not 0. *)
Theorem translate_region_affine (pa lo hi d : Z)
    (Hnz : pa <> 0) (Hr : first_region regions pa = Some (lo, hi, d)) :
  PhysicalToVirtualAddress 0 = ret 0 /\
  lo <= pa < hi /\
  PhysicalToVirtualAddress pa = ret (pa + d) /\
  pa + d <> 0.
Proof.
  split; [reflexivity|].
  unfold PhysicalToVirtualAddress.
  destruct (pa =? 0) eqn:E0; [apply Z.eqb_eq in E0; contradiction|].
  unfold regions, first_region in Hr.
  destruct (in_range VRAM_PADDR VRAM_PADDR_END pa) eqn:E1;
    [|destruct (in_range FCRAM_PADDR FCRAM_PADDR_END pa) eqn:E2;
      [|destruct (in_range DSP_RAM_PADDR DSP_RAM_PADDR_END pa) eqn:E3;
        [|destruct (in_range IO_AREA_PADDR IO_AREA_PADDR_END pa) eqn:E4]]];
    try discriminate; injection Hr as <- <- <-;
    repeat match goal with H : in_range _ _ _ = true |- _ => apply in_range_true in H end;
    unfold VRAM_PADDR_END, VRAM_PADDR, VRAM_SIZE, VRAM_VADDR, FCRAM_PADDR_END,
      FCRAM_PADDR, FCRAM_SIZE, FCRAMStartVAddr, DSP_RAM_PADDR_END, DSP_RAM_PADDR,
      DSP_RAM_SIZE, DSP_RAM_VADDR, IO_AREA_PADDR_END, IO_AREA_PADDR, IO_AREA_SIZE,
      IO_AREA_VADDR in *;
    (split; [lia|]); (split; [|lia]); f_equal; rewrite u32_small by lia; ring.
Qed.

(** C7 (as amended): the packing emits the three words of the source's
    formulas (taken modulo 2^32), and unpacking them gives back exactly
    the low 24 bits of each of [v0..v3]; the top 8 bits are discarded. *)
Theorem pack4_roundtrip_low24 (v0 v1 v2 v3 : Z) :
  pack4 v0 v1 v2 v3 =
    [ u32 (Z.lor (Z.shiftl v3 8) (Z.land (Z.shiftr v2 16) 0xFF));
      u32 (Z.lor (Z.shiftl (Z.land v2 0xFFFF) 16) (Z.land (Z.shiftr v1 8) 0xFFFF));
      u32 (Z.lor (Z.shiftl (Z.land v1 0xFF) 24) (Z.land v0 0xFFFFFF)) ] /\
  unpack_words (pack4 v0 v1 v2 v3) =
    (Z.land v0 0xFFFFFF, Z.land v1 0xFFFFFF, Z.land v2 0xFFFFFF, Z.land v3 0xFFFFFF).
Proof.
  split; [reflexivity|].
  unfold unpack_words, unpack3, pack4; cbn [nth].
  rewrite !pair_equal_spec; repeat split; expand_bits; split_lanes n;
    settle_bits; try reflexivity; f_equal; lia.
Qed.

(** C7 counterexample: [0x12345678] and [0x00345678] (same low 24 bits,
    different top 24 bits) pack to the same words, so no unpacking can
    give back the top 24 bits; the unpacking yields [0x345678], not the
    top 24 bits [0x123456]. *)
Lemma pack4_loses_top_bits :
  pack4 0x12345678 0 0 0 = pack4 0x00345678 0 0 0 /\
  Z.shiftr 0x12345678 8 <> Z.shiftr 0x00345678 8 /\
  unpack_words (pack4 0x12345678 0 0 0) = (0x345678, 0, 0, 0) /\
  unpack_words (pack4 0x12345678 0 0 0) <> (Z.shiftr 0x12345678 8, 0, 0, 0).
Proof. vm_compute; repeat split; congruence. Qed.

(** Witness for C6: the VRAM address 0x18000010. *)
Lemma translate_region_affine_witness :
  PhysicalToVirtualAddress 0x18000010 = ret 0x1F000010.
Proof.
  destruct (translate_region_affine 0x18000010 VRAM_PADDR VRAM_PADDR_END
              (VRAM_VADDR - VRAM_PADDR)) as (_ & _ & H & _);
    [discriminate | reflexivity |].
  exact H.
Defined.

(** ** Address translation failures and address 0 in the stream loop *)

Lemma translate_unknown pa :
  pa <> 0 -> first_region regions pa = None ->
  PhysicalToVirtualAddress pa = ([EvPrint MsgUnknownPaddr; EvNetworkExit], inr HTerminate).
Proof.
  intros Hnz Hr; unfold PhysicalToVirtualAddress.
  destruct (pa =? 0) eqn:E0; [apply Z.eqb_eq in E0; contradiction|].
  unfold regions, first_region in Hr.
  destruct (in_range VRAM_PADDR VRAM_PADDR_END pa); [discriminate|].
  destruct (in_range FCRAM_PADDR FCRAM_PADDR_END pa); [discriminate|].
  destruct (in_range DSP_RAM_PADDR DSP_RAM_PADDR_END pa); [discriminate|].
  destruct (in_range IO_AREA_PADDR IO_AREA_PADDR_END pa); [discriminate|].
  reflexivity.
Qed.

Lemma first_region_none_not_vram pa :
  first_region regions pa = None -> in_range VRAM_PADDR VRAM_PADDR_END pa = false.
Proof. simpl; destruct (in_range VRAM_PADDR VRAM_PADDR_END pa); congruence. Qed.

Lemma run_stream_cons key_start rds i e es :
  key_start i = false ->
  run_stream key_start rds i (e :: es) =
  (step_element (rds i) e ;;; run_stream key_start rds (S i) es).
Proof. intros H; simpl; rewrite H; reflexivity. Qed.

(** Every successful translation, by the branch that produced it. *)
Lemma translate_cases pa v :
  PhysicalToVirtualAddress pa = ret v ->
  (pa = 0 /\ v = 0) \/
  (VRAM_PADDR <= pa < VRAM_PADDR_END /\ v = pa - VRAM_PADDR + VRAM_VADDR) \/
  (FCRAM_PADDR <= pa < FCRAM_PADDR_END /\ v = pa - FCRAM_PADDR + FCRAMStartVAddr) \/
  (DSP_RAM_PADDR <= pa < DSP_RAM_PADDR_END /\ v = pa - DSP_RAM_PADDR + DSP_RAM_VADDR) \/
  (IO_AREA_PADDR <= pa < IO_AREA_PADDR_END /\ v = pa - IO_AREA_PADDR + IO_AREA_VADDR).
Proof.
  unfold PhysicalToVirtualAddress, ret; split_ifs; intros Hv; try discriminate;
    injection Hv as <-; rewrite ?u32_small by (unfold_map; lia); unfold_map; lia.
Qed.

Lemma translate_in_region pa lo hi d :
  first_region regions pa = Some (lo, hi, d) ->
  pa <> 0 /\ lo <= pa < hi /\ PhysicalToVirtualAddress pa = ret (pa + d) /\ pa + d <> 0.
Proof.
  unfold regions, first_region, PhysicalToVirtualAddress; split_ifs; intros Hv;
    try discriminate; injection Hv as <- <- <-;
    rewrite ?u32_small by (unfold_map; lia); unfold_map;
    (split; [lia | split; [lia | split; [f_equal; lia | lia]]]).
Qed.

Lemma poll_trace_events reg rd k m e :
  In e (poll_trace reg rd k m) -> e = EvReadHWRegs reg \/ e = EvSleep 1000.
Proof.
  unfold poll_trace; rewrite !in_app_iff; intros [H | [H | H]].
  - induction m as [|m IH]; [destruct H|].
    cbn [repeat concat] in H; rewrite in_app_iff in H.
    destruct H as [[<- | [<- | []]] | H]; [left | right | apply IH]; auto.
  - destruct H as [<- | []]; left; reflexivity.
  - destruct (low_bit_set (rd (k + m)%nat)); [destruct H|].
    destruct H as [<- | []]; right; reflexivity.
Qed.

Lemma translate_vram a :
  VRAM_PADDR <= a < VRAM_PADDR_END ->
  PhysicalToVirtualAddress a = ret (a - VRAM_PADDR + VRAM_VADDR).
Proof.
  intros H; unfold PhysicalToVirtualAddress.
  destruct (a =? 0) eqn:E0; [apply Z.eqb_eq in E0; unfold VRAM_PADDR in H; lia|].
  rewrite (proj2 (in_range_true _ _ _) H).
  f_equal; apply u32_small; unfold VRAM_PADDR_END, VRAM_PADDR, VRAM_SIZE, VRAM_VADDR in *; lia.
Qed.

Lemma not_in_bind {A B} e (m : M A) (f : A -> M B) :
  ~ In e (fst m) -> (forall a, ~ In e (fst (f a))) -> ~ In e (fst (bind m f)).
Proof.
  destruct m as [l [a | h]]; cbn [bind fst]; [|tauto].
  intros H1 H2; destruct (f a) as [l' r] eqn:E; cbn [fst].
  rewrite in_app_iff; intros [H | H]; [exact (H1 H)|].
  apply (H2 a); rewrite E; exact H.
Qed.

Lemma in_bind_l {A B} e (m : M A) (f : A -> M B) : In e (fst m) -> In e (fst (bind m f)).
Proof.
  destruct m as [l [a | h]]; cbn [bind fst]; [|tauto].
  destruct (f a) as [l' r]; cbn [fst]; intros H; apply in_or_app; left; exact H.
Qed.

Lemma in_bind_r {A B} e (m : M A) (f : A -> M B) a :
  snd m = inl a -> In e (fst (f a)) -> In e (fst (bind m f)).
Proof.
  destruct m as [l [a' | h]]; cbn [bind fst snd]; intros Ha; [|discriminate Ha].
  injection Ha as ->; destruct (f a) as [l' r]; cbn [fst]; intros H; apply in_or_app; right; exact H.
Qed.

Lemma translate_no_unknown_address pa :
  ~ In (EvPrint MsgUnknownAddress) (fst (PhysicalToVirtualAddress pa)).
Proof.
  unfold PhysicalToVirtualAddress; split_ifs; cbn; intros H;
    repeat (destruct H as [H | H]; [discriminate H |]); destruct H.
Qed.

Lemma dma_loop_no_unknown_address fuel : forall remaining addr pos,
  ~ In (EvPrint MsgUnknownAddress) (fst (dma_loop fuel remaining addr pos)).
Proof.
  induction fuel as [|fuel IH]; intros remaining addr pos; cbn [dma_loop]; [cbn; tauto|].
  repeat (apply not_in_bind; [| intros ?]);
    try apply translate_no_unknown_address;
    try (cbn; intros [H | []]; discriminate H).
  destruct (remaining <=? TransferBufferSize); [cbn; tauto | apply IH].
Qed.

(** A memory load to a non-zero address never gives the "unknown address"
    diagnostic, and it either terminates the process or reads the file. *)
Lemma memory_load_nonzero off pa size :
  pa <> 0 ->
  ~ In (EvPrint MsgUnknownAddress) (fst (memory_load off pa size)) /\
  (snd (memory_load off pa size) = inr HTerminate \/
   existsb reads_file (fst (memory_load off pa size)) = true).
Proof.
  intros Hnz; unfold memory_load.
  destruct (in_range VRAM_PADDR VRAM_PADDR_END pa) eqn:Hv.
  - apply in_range_true in Hv; split.
    + repeat first [ apply translate_no_unknown_address
                   | apply dma_loop_no_unknown_address
                   | cbn; intros [H | []]; discriminate H
                   | apply not_in_bind; [| intros ?] ].
    + right; apply existsb_exists.
      exists (EvReadToBuffer off (Z.min TransferBufferSize size)); split; [|reflexivity].
      apply (in_bind_r _ (emit _) _ tt eq_refl).
      rewrite translate_vram by exact Hv.
      apply (in_bind_r _ (ret _) _ _ eq_refl).
      apply (in_bind_r _ (emit _) _ tt eq_refl).
      apply in_bind_l; unfold dma_fuel; cbn [dma_loop].
      rewrite translate_vram by exact Hv.
      apply (in_bind_r _ (ret _) _ _ eq_refl).
      apply (in_bind_r _ (emit _) _ tt eq_refl).
      apply in_bind_l; left; reflexivity.
  - destruct (first_region regions pa) as [[[lo hi] d] |] eqn:Hr.
    + destruct (translate_in_region pa lo hi d Hr) as (_ & _ & Htr & Hd).
      rewrite Htr; cbn [bind emit ret].
      rewrite (proj2 (Z.eqb_neq (pa + d) 0) Hd); cbn.
      split; [|right; reflexivity].
      intros H; repeat (destruct H as [H | H]; [discriminate H |]); destruct H.
    + rewrite (translate_unknown pa Hnz Hr); cbn.
      split; [|left; reflexivity].
      intros H; repeat (destruct H as [H | H]; [discriminate H |]); destruct H.
Qed.

(** ** The completion poll *)

Lemma bind_emit {A} e (f : unit -> M A) :
  bind (emit e) f = let (l, r) := f tt in (e :: l, r).
Proof. unfold bind, emit; simpl; destruct (f tt); reflexivity. Qed.

Lemma poll_loop_shape left reg rd k :
  exists m, (m <= left)%nat /\
    poll_loop left reg rd k = (poll_trace reg rd k m, inl tt) /\
    (forall j, (j < m)%nat -> low_bit_set (rd (k + j)%nat) = false) /\
    (low_bit_set (rd (k + m)%nat) = true \/ m = left).
Proof.
  revert k; induction left as [|left IH]; intros k.
  - exists 0%nat; split; [lia|]; split; [|split; [intros; lia | right; reflexivity]].
    cbn [poll_loop]; rewrite bind_emit; unfold poll_trace; simpl.
    rewrite Nat.add_0_r; destruct (low_bit_set (rd k)); reflexivity.
  - cbn [poll_loop]; rewrite bind_emit.
    destruct (low_bit_set (rd k)) eqn:Hb.
    + exists 0%nat; split; [lia|]; split; [|split; [intros; lia | left; rewrite Nat.add_0_r; exact Hb]].
      unfold poll_trace; simpl; rewrite Nat.add_0_r, Hb; reflexivity.
    + destruct (IH (S k)) as (m & Hm & Heq & Hclear & Hlast).
      exists (S m); split; [lia|]; split; [|split].
      * rewrite bind_emit, Heq; unfold poll_trace; simpl.
        rewrite Nat.add_succ_r; reflexivity.
      * intros j Hj; destruct j as [|j]; [rewrite Nat.add_0_r; exact Hb|].
        rewrite Nat.add_succ_r, <- Nat.add_succ_l; apply Hclear; lia.
      * rewrite Nat.add_succ_r, <- Nat.add_succ_l; destruct Hlast; [left; assumption | right; lia].
Qed.

Lemma count_reads_poll_trace reg rd k m :
  count_reads reg (poll_trace reg rd k m) = S m.
Proof.
  unfold count_reads, poll_trace; rewrite !filter_app, !length_app.
  assert (H : length (filter (is_read_of reg)
             (concat (repeat [EvReadHWRegs reg; EvSleep 1000] m))) = m).
  { induction m as [|m IH]; [reflexivity|].
    simpl; rewrite Z.eqb_refl; simpl; f_equal; apply IH. }
  rewrite H; simpl; rewrite Z.eqb_refl.
  destruct (low_bit_set (rd (k + m)%nat)); simpl; lia.
Qed.

Lemma register_write_print s :
  size_bytes s <> 0 ->
  (if size_bytes s <=? 4 then
     if (size_bytes s =? 1) || (size_bytes s =? 2) || (size_bytes s =? 4)
     then emit (EvPrint MsgWriting) else stop HTerminate
   else emit (EvPrint MsgWriting)) = emit (EvPrint MsgWriting).
Proof. destruct s; simpl; congruence. Qed.

(** C1 (as amended): an untranslatable address (non-zero, in no declared
    region) is fatal to the whole process: for a memory load to such an
    address, and for a write to the command-list trigger register whose
    read-back command-list address (times 8) is such an address, the
    translation prints its diagnostic, closes the network channel and
    terminates the process; no hardware operation is done for the element
    and no later element of the stream is processed. Every other register
    write (of a known size) translates no address: it completes without the
    translation diagnostic and the stream goes on. A memory load to a
    non-zero address is never skipped with the "unknown address"
    diagnostic: it terminates the process or reads the file; only a load to
    address 0 is skipped with that diagnostic, the stream going on. *)
Theorem untranslatable_address_terminates key_start rds i off pa size s v rest :
  key_start i = false ->
  (pa <> 0 -> first_region regions pa = None ->
   run_stream key_start rds i (MemoryLoad off pa size :: rest) =
     ([EvPrint MsgUnknownPaddr; EvNetworkExit], inr HTerminate)) /\
  (size_bytes s <> 0 ->
   u32 (rds i 1%nat * 8) <> 0 -> first_region regions (u32 (rds i 1%nat * 8)) = None ->
   run_stream key_start rds i (RegisterWrite 0x104018F0 s v :: rest) =
     ([EvPrint MsgWriting; EvReadHWRegs (hw_reg 0x104018E0);
       EvReadHWRegs (hw_reg 0x104018E8); EvPrint MsgUnknownPaddr; EvNetworkExit],
      inr HTerminate)) /\
  (forall pa' s' v', pa' <> 0x104018F0 -> size_bytes s' <> 0 ->
   exists l, step_element (rds i) (RegisterWrite pa' s' v') = (l, inl tt) /\
     ~ In (EvPrint MsgUnknownPaddr) l /\
     run_stream key_start rds i (RegisterWrite pa' s' v' :: rest) =
       (let (l', r) := run_stream key_start rds (S i) rest in (l ++ l', r))) /\
  (pa <> 0 ->
   ~ In (EvPrint MsgUnknownAddress) (fst (step_element (rds i) (MemoryLoad off pa size))) /\
   (snd (step_element (rds i) (MemoryLoad off pa size)) = inr HTerminate \/
    existsb reads_file (fst (step_element (rds i) (MemoryLoad off pa size))) = true)) /\
  run_stream key_start rds i (MemoryLoad off 0 size :: rest) =
    (let (l, r) := run_stream key_start rds (S i) rest in
     (EvPrint MsgLoad :: EvPrint MsgUnknownAddress :: l, r)).
Proof.
  intros Hk; split; [|split; [|split; [|split]]].
  - intros Hnz Hr; rewrite run_stream_cons by exact Hk.
    simpl step_element; unfold memory_load.
    rewrite (first_region_none_not_vram pa Hr), (translate_unknown pa Hnz Hr).
    reflexivity.
  - intros Hs Hnz Hr; rewrite run_stream_cons by exact Hk.
    simpl step_element; unfold register_write.
    rewrite Z.eqb_refl.
    assert (Hpr : (if size_bytes s <=? 4 then
                     if (size_bytes s =? 1) || (size_bytes s =? 2) || (size_bytes s =? 4)
                     then emit (EvPrint MsgWriting) else stop HTerminate
                   else emit (EvPrint MsgWriting)) = emit (EvPrint MsgWriting))
      by (destruct s; simpl in *; congruence).
    rewrite Hpr; cbn [bind emit].
    rewrite (translate_unknown _ Hnz Hr); reflexivity.
  - intros pa' s' v' Hpa Hs.
    assert (Hw : exists l, register_write (rds i) pa' s' v' = (l, inl tt) /\
                           ~ In (EvPrint MsgUnknownPaddr) l).
    { unfold register_write; rewrite (register_write_print s' Hs).
      rewrite (proj2 (Z.eqb_neq pa' 0x104018F0) Hpa).
      destruct (is_trigger_register pa'); cbn [bind emit ret].
      - unfold poll; destruct (poll_loop_shape 100 (hw_reg pa') (rds i) 0) as (m & _ & Hp & _).
        rewrite Hp; cbn [bind emit ret app].
        eexists; split; [reflexivity|].
        intros H; do 3 (destruct H as [H | H]; [discriminate H |]).
        apply poll_trace_events in H; destruct H; discriminate.
      - eexists; split; [reflexivity|].
        intros H; repeat (destruct H as [H | H]; [discriminate H |]); destruct H. }
    destruct Hw as (l & Hl & Hn); exists l; split; [exact Hl|]; split; [exact Hn|].
    rewrite run_stream_cons by exact Hk; cbn [step_element]; rewrite Hl; reflexivity.
  - intros Hnz; cbn [step_element]; apply memory_load_nonzero; exact Hnz.
  - rewrite run_stream_cons by exact Hk.
    simpl step_element; unfold bind at 1; cbn.
    destruct (run_stream key_start rds (S i) rest); reflexivity.
Qed.

(** C1 counterexample: a memory load to 0x30000000 (non-zero, in no
    region) followed by a frame marker: the process terminates at the
    memory load and the frame marker is never processed. *)
Lemma unknown_address_ends_stream :
  run_stream (fun _ => false) (fun _ _ => 0) 0
             [MemoryLoad 0 0x30000000 16; FrameMarker] =
    ([EvPrint MsgUnknownPaddr; EvNetworkExit], inr HTerminate).
Proof. reflexivity. Qed.

(** Witness for C1: the memory load above, and a trigger write whose
    read-back command-list address is 0x06000000 (0x30000000 once
    multiplied by 8). *)
Lemma untranslatable_address_terminates_witness :
  run_stream (fun _ => false) (fun _ _ => 0) 0 [MemoryLoad 0 0x30000000 16; FrameMarker] =
    ([EvPrint MsgUnknownPaddr; EvNetworkExit], inr HTerminate) /\
  run_stream (fun _ => false) (fun _ _ => 0x06000000) 0
             [RegisterWrite 0x104018F0 SIZE_32 1; FrameMarker] =
    ([EvPrint MsgWriting; EvReadHWRegs (hw_reg 0x104018E0);
      EvReadHWRegs (hw_reg 0x104018E8); EvPrint MsgUnknownPaddr; EvNetworkExit],
     inr HTerminate).
Proof.
  split.
  - destruct (untranslatable_address_terminates (fun _ => false) (fun _ _ => 0) 0 0
                0x30000000 16 SIZE_32 1 [FrameMarker] eq_refl) as [H _].
    apply H; [discriminate | reflexivity].
  - destruct (untranslatable_address_terminates (fun _ => false) (fun _ _ => 0x06000000) 0 0
                0x30000000 16 SIZE_32 1 [FrameMarker] eq_refl) as [_ [H _]].
    apply H; [discriminate | vm_compute; discriminate | reflexivity].
Defined.

(** C10: a memory load to physical address 0 takes the non-VRAM path,
    translates to 0, prints the load line and the "unknown address" line,
    reads no bytes and flushes nothing, and the stream loop goes on with
    the next element. *)
Theorem memory_load_null_skipped key_start rds i off size rest :
  key_start i = false ->
  step_element (rds i) (MemoryLoad off 0 size) =
    ([EvPrint MsgLoad; EvPrint MsgUnknownAddress], inl tt) /\
  run_stream key_start rds i (MemoryLoad off 0 size :: rest) =
    (let (l, r) := run_stream key_start rds (S i) rest in
     (EvPrint MsgLoad :: EvPrint MsgUnknownAddress :: l, r)).
Proof.
  intros Hk; split; [reflexivity|].
  rewrite run_stream_cons by exact Hk.
  simpl step_element; unfold bind at 1; cbn.
  destruct (run_stream key_start rds (S i) rest); reflexivity.
Qed.

(** Witness for C10: a load of 16 bytes to address 0 followed by a frame
    marker, which is then played. *)
Lemma memory_load_null_skipped_witness :
  run_stream (fun _ => false) (fun _ _ => 0) 0 [MemoryLoad 8 0 16; FrameMarker] =
    ([EvPrint MsgLoad; EvPrint MsgUnknownAddress;
      EvPrint MsgReachedEndOfFrame; EvSwapBuffers; EvWaitVBlank], inl tt).
Proof.
  destruct (memory_load_null_skipped (fun _ => false) (fun _ _ => 0) 0 8 16
              [FrameMarker] eq_refl) as [_ H].
  rewrite H; reflexivity.
Defined.


(** C5 (as amended): after a write to one of the operation-triggering
    registers (0x1040001C, 0x1040002C, 0x10400C18, 0x104018F0) the engine
    polls that register: [m] reads with the low bit clear, each followed
    by a 1000 ns sleep, then one more read, followed by a sleep if its low
    bit is clear, with [m <= 100]: at most 101 reads, stopping at the first
    read with the low bit set; the element then completes normally, so
    playback continues whether or not the bit was seen set. (For the
    trigger register 0x104018F0, the read-back command-list address must
    translate; see C1.) *)
Theorem trigger_write_poll_bounded rd pa s v :
  is_trigger_register pa = true -> size_bytes s <> 0 ->
  (pa = 0x104018F0 -> exists va, PhysicalToVirtualAddress (u32 (rd 1%nat * 8)) = ret va) ->
  exists pre k0 m,
    register_write rd pa s v =
      (pre ++ EvPrint MsgWaiting :: poll_trace (hw_reg pa) rd k0 m, inl tt) /\
    (m <= 100)%nat /\
    count_reads (hw_reg pa) (poll_trace (hw_reg pa) rd k0 m) = S m /\
    (forall j, (j < m)%nat -> low_bit_set (rd (k0 + j)%nat) = false) /\
    (low_bit_set (rd (k0 + m)%nat) = true \/ m = 100%nat).
Proof.
  intros Ht Hs Htr; unfold register_write.
  rewrite (register_write_print s Hs), Ht.
  destruct (Z.eqb_spec pa 0x104018F0) as [Hf | Hf].
  - destruct (Htr Hf) as [va Hva].
    destruct (poll_loop_shape 100 (hw_reg pa) rd 2) as (m & Hm & Heq & Hclear & Hlast).
    exists [EvPrint MsgWriting; EvReadHWRegs (hw_reg 0x104018E0);
            EvReadHWRegs (hw_reg 0x104018E8); EvProcessCommandList va (rd 0%nat) (u8 v)], 2%nat, m.
    split; [|split; [exact Hm | split; [apply count_reads_poll_trace | split; assumption]]].
    cbn [bind emit]; rewrite Hva; cbn [bind emit ret].
    unfold poll; rewrite Heq; reflexivity.
  - destruct (poll_loop_shape 100 (hw_reg pa) rd 0) as (m & Hm & Heq & Hclear & Hlast).
    exists [EvPrint MsgWriting; EvWriteHWRegs (hw_reg pa) (Z.land v 0xFFFFFFFF) (size_bytes s)],
           0%nat, m.
    split; [|split; [exact Hm | split; [apply count_reads_poll_trace | split; assumption]]].
    cbn [bind emit ret]; unfold poll; rewrite Heq; reflexivity.
Qed.

(** C5 counterexample: a 32-bit write to 0x1040001C whose register never
    shows the low bit set is read back 101 times, not at most 100. *)
Lemma poll_reads_101_times :
  count_reads (hw_reg 0x1040001C)
              (fst (register_write (fun _ => 0) 0x1040001C SIZE_32 5)) = 101%nat /\
  snd (register_write (fun _ => 0) 0x1040001C SIZE_32 5) = inl tt.
Proof. vm_compute; split; reflexivity. Qed.

(** Witness for C5: a write to 0x10400C18 whose register shows the low bit
    set at the third read: three reads, two sleeps. *)
Lemma trigger_write_poll_bounded_witness :
  exists pre k0 m,
    register_write (fun k => if (k =? 2)%nat then 1 else 0) 0x10400C18 SIZE_32 5 =
      (pre ++ EvPrint MsgWaiting
             :: poll_trace (hw_reg 0x10400C18) (fun k => if (k =? 2)%nat then 1 else 0) k0 m,
       inl tt) /\
    (m <= 100)%nat.
Proof.
  destruct (trigger_write_poll_bounded (fun k => if (k =? 2)%nat then 1 else 0)
              0x10400C18 SIZE_32 5 eq_refl ltac:(discriminate)
              ltac:(intros H; discriminate H)) as (pre & k0 & m & H1 & H2 & _).
  exists pre, k0, m; split; assumption.
Defined.

(** ** VRAM memory loads *)


Lemma chunk_list_succ pos addr remaining n :
  (0 < n)%nat ->
  chunk_list pos addr remaining (S n) =
  (pos, addr, TransferBufferSize)
    :: chunk_list (pos + TransferBufferSize) (addr + TransferBufferSize)
                  (remaining - TransferBufferSize) n.
Proof.
  intros Hn; unfold chunk_list; simpl seq; cbn [map].
  replace (0 + 1 =? S n)%nat with false by (symmetry; apply Nat.eqb_neq; lia).
  f_equal; [f_equal; f_equal; lia|].
  rewrite <- seq_shift, map_map; apply map_ext; intros k.
  replace (S k + 1 =? S n)%nat with (k + 1 =? n)%nat
    by (destruct (Nat.eqb_spec (k + 1) n), (Nat.eqb_spec (S k + 1) (S n)); auto; lia).
  rewrite !Nat2Z.inj_succ, !Nat2Z.inj_sub by lia.
  f_equal; [f_equal|]; try lia.
  destruct (k + 1 =? n)%nat; [|reflexivity].
  rewrite Nat2Z.inj_succ; lia.
Qed.

Lemma dma_loop_chunks n : forall fuel remaining addr pos,
  (n < fuel)%nat ->
  0 <= remaining <= TransferBufferSize * (Z.of_nat n + 1) ->
  ((0 < n)%nat -> TransferBufferSize * Z.of_nat n < remaining) ->
  VRAM_PADDR <= addr -> addr + TransferBufferSize * Z.of_nat n < VRAM_PADDR_END ->
  dma_loop fuel remaining addr pos =
    (flat_map chunk_events (chunk_list pos addr remaining (S n)), inl tt).
Proof.
  unfold TransferBufferSize.
  induction n as [|n IH]; intros fuel remaining addr pos Hf Hr Hlow Hlo Hhi;
    (destruct fuel as [|fuel]; [lia|]); cbn [dma_loop]; unfold TransferBufferSize.
  - rewrite translate_vram by lia; cbn [bind ret emit].
    replace (Z.min 1024 remaining) with remaining by lia.
    rewrite (proj2 (Z.leb_le remaining 1024)) by lia.
    unfold chunk_list; simpl; repeat rewrite Z.add_0_r; rewrite Z.sub_0_r; reflexivity.
  - rewrite translate_vram by lia; cbn [bind ret emit].
    replace (Z.min 1024 remaining) with 1024 by lia.
    rewrite (proj2 (Z.leb_gt remaining 1024)) by lia.
    rewrite (IH fuel) by (unfold u32 in *; rewrite ?Z.mod_small; unfold VRAM_PADDR_END,
                           VRAM_PADDR, VRAM_SIZE in *; lia).
    rewrite u32_small by (unfold VRAM_PADDR_END, VRAM_PADDR, VRAM_SIZE in *; lia).
    rewrite (chunk_list_succ pos addr remaining (S n)) by lia.
    reflexivity.
Qed.

Lemma map_const_seq {A} (c : A) s n : map (fun _ => c) (seq s n) = repeat c n.
Proof. revert s; induction n as [|n IH]; intros s; [reflexivity|]; simpl; f_equal; apply IH. Qed.

Lemma chunk_list_sizes pos addr r n :
  map chunk_size (chunk_list pos addr r (S n)) =
  repeat TransferBufferSize n ++ [r - TransferBufferSize * Z.of_nat n].
Proof.
  unfold chunk_list; rewrite seq_S, map_app, map_app, map_map; cbn [map].
  rewrite (proj2 (Nat.eqb_eq (0 + n + 1) (S n))) by lia.
  replace (S n - 1)%nat with n by lia.
  f_equal.
  rewrite <- (map_const_seq TransferBufferSize 0 n).
  apply map_ext_in; intros k Hk; apply in_seq in Hk; simpl.
  replace (k + 1 =? S n)%nat with false by (symmetry; apply Nat.eqb_neq; lia); reflexivity.
Qed.

Lemma sum_list_repeat_last c n x :
  sum_list (repeat c n ++ [x]) = c * Z.of_nat n + x.
Proof.
  induction n as [|n IH]; simpl; [lia|].
  unfold sum_list in *; simpl; rewrite IH; lia.
Qed.

Lemma nchunks_bounds size :
  0 <= size ->
  exists n', nchunks size = S n' /\
    size <= TransferBufferSize * (Z.of_nat n' + 1) /\
    ((0 < n')%nat -> TransferBufferSize * Z.of_nat n' < size) /\
    (n' < dma_fuel size)%nat /\
    size - TransferBufferSize * Z.of_nat n' =
      (if size <=? TransferBufferSize then size
       else if size mod TransferBufferSize =? 0 then TransferBufferSize
       else size mod TransferBufferSize).
Proof.
  intros Hs; unfold nchunks, dma_fuel, TransferBufferSize.
  destruct (Z.leb_spec size 1024) as [Hle | Hgt].
  - exists 0%nat; simpl; repeat split; try lia.
  - assert (Hq : 2 <= (size + 1024 - 1) / 1024).
    { apply Z.div_le_lower_bound; lia. }
    exists (Z.to_nat ((size + 1024 - 1) / 1024 - 1)).
    assert (Hn : Z.of_nat (Z.to_nat ((size + 1024 - 1) / 1024 - 1)) =
                 (size + 1024 - 1) / 1024 - 1) by (apply Z2Nat.id; lia).
    split; [rewrite <- Z2Nat.inj_succ by lia; f_equal; lia|].
    rewrite Hn.
    assert (Hdiv : size / 1024 * 1024 <= size < size / 1024 * 1024 + 1024 /\
                   size mod 1024 = size - size / 1024 * 1024).
    { pose proof (Z.div_mod size 1024 ltac:(lia)).
      pose proof (Z.mod_pos_bound size 1024 ltac:(lia)). lia. }
    assert (Hc : (size + 1024 - 1) / 1024 * 1024 <= size + 1023 <
                 (size + 1024 - 1) / 1024 * 1024 + 1024).
    { pose proof (Z.div_mod (size + 1024 - 1) 1024 ltac:(lia)).
      pose proof (Z.mod_pos_bound (size + 1024 - 1) 1024 ltac:(lia)). lia. }
    repeat split; try lia.
    destruct (Z.eqb_spec (size mod 1024) 0); nia.
Qed.

Lemma first_region_past_vram x :
  VRAM_PADDR_END <= x < DSP_RAM_PADDR -> first_region regions x = None.
Proof.
  intros H; unfold regions; cbn [first_region]; split_ifs; unfold_map;
    try reflexivity; lia.
Qed.

(** The DMA loop when the chunk [j] is the first to start at or past the
    end of VRAM: the [j] chunks before it, then the failed translation. *)
Lemma dma_loop_cut j : forall fuel remaining addr pos n,
  (j < fuel)%nat -> (j < n)%nat ->
  TransferBufferSize * Z.of_nat j < remaining ->
  VRAM_PADDR <= addr ->
  addr + TransferBufferSize * Z.of_nat j - TransferBufferSize < VRAM_PADDR_END <=
    addr + TransferBufferSize * Z.of_nat j ->
  dma_loop fuel remaining addr pos =
    (flat_map chunk_events (firstn j (chunk_list pos addr remaining n))
       ++ [EvPrint MsgUnknownPaddr; EvNetworkExit], inr HTerminate).
Proof.
  induction j as [|j IH]; intros fuel remaining addr pos n Hf Hn Hr Hlo Hhi;
    (destruct fuel as [|fuel]; [lia|]); cbn [dma_loop].
  - rewrite Z.add_0_r in Hhi.
    rewrite translate_unknown; [reflexivity | unfold_map; lia |].
    apply first_region_past_vram; unfold TransferBufferSize in *; unfold_map; lia.
  - rewrite Nat2Z.inj_succ in Hr, Hhi.
    destruct n as [|n]; [lia|].
    rewrite (chunk_list_succ pos addr remaining n) by lia.
    cbn [firstn flat_map].
    rewrite translate_vram by (unfold TransferBufferSize in *; lia); cbn [bind ret emit].
    unfold TransferBufferSize in *.
    replace (Z.min 1024 remaining) with 1024 by lia.
    rewrite (proj2 (Z.leb_gt remaining 1024)) by lia.
    rewrite u32_small by (unfold_map; lia).
    rewrite (IH fuel (remaining - 1024) (addr + 1024) (pos + 1024) n) by lia.
    cbn [chunk_events]; rewrite <- app_assoc; reflexivity.
Qed.

(** C8 (as amended): a memory load to VRAM of [size] bytes whose chunk
    start addresses all lie in VRAM (the last one, [pa + 1024 * (n - 1)]
    for [n] chunks, below the end of VRAM) is done in [n] chunks, the
    [k]-th reading at file position [off + 1024 * k] and going by DMA to
    the translation of [pa + 1024 * k]; the chunk sizes are [n - 1] times
    1024 followed by the remainder ([size] when [size <= 1024], otherwise
    [size mod 1024], or 1024 when that is 0), and they sum to [size].
    When the chunk [j > 0] is the first to start at or past the end of
    VRAM, the [j] chunks before it are transferred and its translation
    then terminates the process. *)
Theorem vram_memory_load_chunks off pa size :
  0 <= size -> VRAM_PADDR <= pa ->
  (pa + TransferBufferSize * (Z.of_nat (nchunks size) - 1) < VRAM_PADDR_END ->
   memory_load off pa size =
     ([EvLinearAlloc TransferBufferSize; EvPrint MsgLoadVram]
        ++ flat_map chunk_events (chunk_list off pa size (nchunks size))
        ++ [EvLinearFree], inl tt) /\
   map chunk_size (chunk_list off pa size (nchunks size)) =
     repeat TransferBufferSize (nchunks size - 1)
       ++ [if size <=? TransferBufferSize then size
           else if size mod TransferBufferSize =? 0 then TransferBufferSize
           else size mod TransferBufferSize] /\
   sum_list (map chunk_size (chunk_list off pa size (nchunks size))) = size) /\
  (forall j, (0 < j < nchunks size)%nat ->
   pa + TransferBufferSize * (Z.of_nat j - 1) < VRAM_PADDR_END <=
     pa + TransferBufferSize * Z.of_nat j ->
   memory_load off pa size =
     ([EvLinearAlloc TransferBufferSize; EvPrint MsgLoadVram]
        ++ flat_map chunk_events (firstn j (chunk_list off pa size (nchunks size)))
        ++ [EvPrint MsgUnknownPaddr; EvNetworkExit], inr HTerminate)).
Proof.
  intros Hs Hlo.
  destruct (nchunks_bounds size Hs) as (n & Hn & Hup & Hlow & Hf & Hlast).
  split.
  - intros Hhi; rewrite Hn in *; rewrite Nat2Z.inj_succ in Hhi.
    assert (Hin : in_range VRAM_PADDR VRAM_PADDR_END pa = true).
    { apply in_range_true; unfold TransferBufferSize in Hhi; lia. }
    split; [|split].
    + unfold memory_load; rewrite Hin; cbn [bind emit ret].
      rewrite translate_vram by (apply in_range_true; exact Hin); cbn [bind emit ret].
      rewrite (dma_loop_chunks n) by (try assumption; lia).
      cbn [bind emit ret]; rewrite ?app_nil_r; reflexivity.
    + rewrite chunk_list_sizes, Nat.sub_succ, Nat.sub_0_r, Hlast; reflexivity.
    + rewrite chunk_list_sizes, sum_list_repeat_last; lia.
  - intros j Hj Hcut; rewrite Hn in *.
    assert (Hpa : VRAM_PADDR <= pa < VRAM_PADDR_END)
      by (unfold TransferBufferSize in *; lia).
    unfold memory_load; rewrite (proj2 (in_range_true _ _ _) Hpa); cbn [bind emit ret].
    rewrite translate_vram by exact Hpa; cbn [bind emit ret].
    rewrite (dma_loop_cut j _ size pa off (S n)); [reflexivity | lia | lia | | lia | lia].
    unfold TransferBufferSize in *; nia.
Qed.

(** C8 counterexample: a 2048-byte load to the last KiB of VRAM
    (0x185FFC00): the second chunk starts at 0x18600000, outside VRAM, and
    its translation terminates the process after 1024 of the 2048 bytes. *)
Lemma vram_load_past_end_terminates :
  memory_load 0 0x185FFC00 2048 =
    ([EvLinearAlloc 1024; EvPrint MsgLoadVram;
      EvPrint MsgTransfer; EvReadToBuffer 0 1024; EvFlushBuffer 1024;
      EvDma 0x1F5FFC00 1024; EvWaitDma;
      EvPrint MsgUnknownPaddr; EvNetworkExit], inr HTerminate).
Proof. reflexivity. Qed.

(** Witness for C8: 1500 bytes to the start of VRAM, in chunks of 1024
    and 476 bytes; 2048 bytes to the last KiB of VRAM, whose second chunk
    is the first past the end. *)
Lemma vram_memory_load_chunks_witness :
  memory_load 0x40 0x18000000 1500 =
    ([EvLinearAlloc 1024; EvPrint MsgLoadVram;
      EvPrint MsgTransfer; EvReadToBuffer 0x40 1024; EvFlushBuffer 1024;
      EvDma 0x1F000000 1024; EvWaitDma;
      EvPrint MsgTransfer; EvReadToBuffer 0x440 476; EvFlushBuffer 476;
      EvDma 0x1F000400 476; EvWaitDma; EvLinearFree], inl tt) /\
  memory_load 0 0x185FFC00 2048 =
    ([EvLinearAlloc 1024; EvPrint MsgLoadVram;
      EvPrint MsgTransfer; EvReadToBuffer 0 1024; EvFlushBuffer 1024;
      EvDma 0x1F5FFC00 1024; EvWaitDma;
      EvPrint MsgUnknownPaddr; EvNetworkExit], inr HTerminate).
Proof.
  split.
  - destruct (vram_memory_load_chunks 0x40 0x18000000 1500) as [H _];
      [lia | vm_compute; discriminate |].
    destruct H as [H _]; [vm_compute; reflexivity |].
    rewrite H; reflexivity.
  - destruct (vram_memory_load_chunks 0 0x185FFC00 2048) as [_ H];
      [lia | vm_compute; discriminate |].
    rewrite (H 1%nat); [reflexivity | vm_compute; lia |].
    unfold TransferBufferSize, VRAM_PADDR_END, VRAM_PADDR, VRAM_SIZE; simpl Z.of_nat; lia.
Defined.

(** ** Submitting float uniforms *)

Lemma float_loop_length iv n hdr w st :
  length (snd (float_loop iv n hdr w st)) =
  (length (snd st) + 3 * n + (if w then 0 else if (n =? 0)%nat then 0 else 1))%nat.
Proof.
  revert w st; induction n as [|n IH]; intros w [s cl]; [destruct w; simpl; lia|].
  cbn [float_loop]; destruct (read_values s iv) as [s' vals].
  rewrite IH; cbn [snd]; rewrite !length_app; destruct w; simpl; lia.
Qed.

(** C4: with the float-uniform flag and [4 * (q + 1)] words,
    the submission appends [2 + 3 * q] words, plus the data command header
    only when [q > 0]: [q] groups of 4 words are packed, not [q + 1]. For 4
    words, only the two words [0; id | 0xF0000] are appended: no data
    command header and no packed word. *)
Theorem float_uniform_submit_skips_group iv off reg q s cl :
  length (snd (SubmitInternalMemory iv off (4 * Z.of_nat (S q)) reg true (s, cl))) =
    (length cl + 2 + 3 * q + (if (q =? 0)%nat then 0 else 1))%nat /\
  snd (SubmitInternalMemory iv off 4 reg true (s, cl)) = cl ++ [0; Z.lor reg 0xF0000].
Proof.
  split.
  - unfold SubmitInternalMemory.
    replace (4 * Z.of_nat (S q) =? 0) with false by (symmetry; apply Z.eqb_neq; lia).
    replace (4 * Z.of_nat (S q) / 4) with (Z.of_nat (S q))
      by (rewrite Z.mul_comm, Z.div_mul; lia).
    rewrite Nat2Z.id, float_loop_length; cbn [snd]; rewrite length_app; simpl.
    rewrite Nat.sub_0_r; lia.
  - reflexivity.
Qed.

(** ** Default vertex attributes *)

Lemma le32_skipn_app k b r :
  (k + 4 <= length b)%nat -> le32 (skipn k (b ++ r)) = le32 (skipn k b).
Proof.
  intros H; unfold le32; f_equal.
  rewrite skipn_app, firstn_app, length_skipn.
  replace (4 - (length b - k))%nat with 0%nat by lia.
  rewrite firstn_O, app_nil_r; reflexivity.
Qed.

Lemma le32_app b r : (4 <= length b)%nat -> le32 (b ++ r) = le32 b.
Proof. intros H; exact (le32_skipn_app 0 b r H). Qed.

Lemma default_attribute_slot_read iv h i s cl :
  failed s = false ->
  (Z.to_nat (default_attributes h) + 16 <= length (data s))%nat ->
  default_attribute_slot iv h i (s, cl) =
    ({| data := data s; pos := default_attributes h + 16; failed := false |},
     cl ++ [i; Z.lor (Z.lor 0x232 0xF0000) (Z.shiftl 3 20)]
        ++ pack_values (source_values (data s) (default_attributes h))).
Proof.
  intros Hf Hlen.
  unfold default_attribute_slot, seekg, read_values, read; rewrite Hf; cbn [failed pos data].
  rewrite (proj2 (Nat.leb_le 16 _)) by (rewrite length_skipn; lia).
  unfold overwrite, source_values.
  assert (Hl : length (firstn 16 (skipn (Z.to_nat (default_attributes h)) (data s))) = 16%nat)
    by (rewrite length_firstn, length_skipn; lia).
  rewrite Hl, <- app_assoc.
  rewrite le32_app by lia.
  rewrite (le32_skipn_app 4) by lia.
  rewrite (le32_skipn_app 8) by lia.
  rewrite (le32_skipn_app 12) by lia.
  reflexivity.
Qed.

Lemma default_attributes_fold iv h l s cl :
  failed s = false ->
  (Z.to_nat (default_attributes h) + 16 <= length (data s))%nat ->
  snd (fold_left (fun st i => default_attribute_slot iv h i st) l (s, cl)) =
  cl ++ flat_map (fun i => [i; Z.lor (Z.lor 0x232 0xF0000) (Z.shiftl 3 20)]
                             ++ pack_values (source_values (data s) (default_attributes h))) l.
Proof.
  revert s cl; induction l as [|i l IH]; intros s cl Hf Hlen.
  - simpl; rewrite app_nil_r; reflexivity.
  - cbn [fold_left]; rewrite default_attribute_slot_read by assumption.
    rewrite IH by (cbn [failed data]; first [reflexivity | assumption]).
    cbn [data flat_map]; rewrite !app_assoc; reflexivity.
Qed.

Lemma default_attribute_slot_length iv h i st :
  length (snd (default_attribute_slot iv h i st)) = (length (snd st) + 5)%nat.
Proof.
  destruct st as [s cl]; unfold default_attribute_slot.
  destruct (read_values (seekg s (default_attributes h)) iv) as [s' [[[v0 v1] v2] v3]].
  cbn [snd pack_values pack4]; rewrite !length_app; simpl; lia.
Qed.

Lemma default_attributes_loop_length iv h st :
  length (snd (default_attributes_loop iv h st)) =
  (length (snd st) + 5 * Z.to_nat (default_attributes_size h / 4))%nat.
Proof.
  unfold default_attributes_loop, zseq.
  rewrite <- (length_seq (Z.to_nat (default_attributes_size h / 4)) 0) at 2.
  rewrite <- (length_map Z.of_nat).
  generalize (map Z.of_nat (seq 0 (Z.to_nat (default_attributes_size h / 4)))) as l.
  intros l; revert st; induction l as [|i l IH]; intros st; [simpl; lia|].
  cbn [fold_left length]; rewrite IH, default_attribute_slot_length; lia.
Qed.

(** C9: when the stream is good and the file holds 16 bytes at the
    default-attributes offset, every slot [i] appends [i], the command
    header [0x232 | 0xF0000 | (3 << 20)] and the packing of the same four
    words, the first four of the default-attributes area (the read position
    is reset before each slot); and in every case each slot appends exactly
    5 words, so an odd number of slots leaves an odd length. *)
Theorem default_attributes_same_source iv h s cl :
  (failed s = false ->
   (Z.to_nat (default_attributes h) + 16 <= length (data s))%nat ->
   snd (default_attributes_loop iv h (s, cl)) =
   cl ++ flat_map (fun i => [i; Z.lor (Z.lor 0x232 0xF0000) (Z.shiftl 3 20)]
                              ++ pack_values (source_values (data s) (default_attributes h)))
                  (zseq (Z.to_nat (default_attributes_size h / 4)))) /\
  length (snd (default_attributes_loop iv h (s, cl))) =
    (length cl + 5 * Z.to_nat (default_attributes_size h / 4))%nat.
Proof.
  split.
  - intros Hf Hlen; unfold default_attributes_loop; apply default_attributes_fold; assumption.
  - apply default_attributes_loop_length.
Qed.

(** Witness for C9: two slots over a file holding the bytes 1, 2, ..., 32:
    both slots pack the words of bytes 1..16. *)
Lemma default_attributes_same_source_witness :
  snd (default_attributes_loop [] (mk_header 0 0 0 8)
         ({| data := map Z.of_nat (seq 1 32); pos := 0; failed := false |}, [])) =
    [0; 0x3F0232; 0x0F0E0D0B; 0x0A090706; 0x05030201;
     1; 0x3F0232; 0x0F0E0D0B; 0x0A090706; 0x05030201].
Proof.
  destruct (default_attributes_same_source [] (mk_header 0 0 0 8)
              {| data := map Z.of_nat (seq 1 32); pos := 0; failed := false |} [])
    as [H _].
  rewrite H by (simpl; first [reflexivity | lia]).
  vm_compute; reflexivity.
Defined.

(** ** Padding the command list *)

Lemma pad_loop_odd fuel : forall cl,
  Nat.odd (length cl) = true -> pad_loop fuel cl = None.
Proof.
  induction fuel as [|fuel IH]; intros cl Hodd; [reflexivity|].
  cbn [pad_loop].
  replace (Z.of_nat (length cl) mod 4 =? 0) with false.
  - apply IH; rewrite !length_app; cbn [length].
    replace (length cl + 1 + 1)%nat with (S (S (length cl))) by lia.
    rewrite Nat.odd_succ_succ; exact Hodd.
  - symmetry; apply Z.eqb_neq; intros H.
    apply Nat.odd_spec in Hodd; destruct Hodd as [k Hk].
    rewrite Hk in H; rewrite Nat2Z.inj_add, Nat2Z.inj_mul in H.
    Z.div_mod_to_equations; lia.
Qed.

(** C2: the padding loop adds two words per turn, so it never
    ends on a list of odd length. With one default attribute
    ([default_attributes_size = 4]) and every other size field 0, the list
    has 5 words before padding and the loop runs forever: no amount of fuel
    finishes the command-list construction, whatever the file holds. *)
Theorem padding_never_ends_on_odd_length iv iw fuel s :
  build_command_list iv iw fuel (mk_header 0 0 0 4) s = None /\
  (forall cl, Nat.odd (length cl) = true -> pad_loop fuel cl = None).
Proof.
  split; [|apply pad_loop_odd].
  unfold build_command_list, initial_commands.
  pose proof (default_attributes_loop_length iv (mk_header 0 0 0 4) (s, [])) as Hl.
  destruct (default_attributes_loop iv (mk_header 0 0 0 4) (s, [])) as [s1 cl1].
  cbn in Hl |- *.
  apply pad_loop_odd; rewrite Hl; reflexivity.
Qed.

(** ** Reading the stream *)

Lemma read_length s n : (length (snd (read s n)) <= n)%nat.
Proof.
  unfold read; destruct (failed s); [simpl; lia|].
  destruct (Nat.leb_spec n (length (skipn (Z.to_nat (pos s)) (data s)))); cbn [snd].
  - rewrite length_firstn; lia.
  - lia.
Qed.

Lemma read_records_shape esz n : forall s,
  length (snd (read_records esz n s)) = n /\
  Forall (fun r => length r = esz) (snd (read_records esz n s)).
Proof.
  induction n as [|n IH]; intros s; [split; [reflexivity | constructor]|].
  cbn [read_records].
  pose proof (read_length s esz) as Hr.
  destruct (read s esz) as [s1 got]; cbn [snd] in Hr.
  destruct (IH s1) as [H1 H2].
  destruct (read_records esz n s1) as [s2 rest]; cbn [snd] in *.
  split; [simpl; lia|].
  constructor; [|exact H2].
  unfold overwrite; rewrite length_app, length_skipn, repeat_length; lia.
Qed.

Lemma read_records_failed esz n : forall s,
  failed s = true -> read_records esz n s = (s, repeat (repeat 0 esz) n).
Proof.
  induction n as [|n IH]; intros s Hf; [reflexivity|].
  cbn [read_records]; unfold read at 1; rewrite Hf.
  rewrite (IH s Hf); reflexivity.
Qed.

Lemma read_word_failed s old :
  failed s = true -> read_word s old = (s, le32 (bytes32 old)).
Proof. intros H; unfold read_word, read; rewrite H; reflexivity. Qed.

Lemma word_loop_failed n : forall s cl,
  failed s = true -> word_loop n (s, cl) = (s, cl ++ repeat 0 n).
Proof.
  induction n as [|n IH]; intros s cl Hf; [rewrite app_nil_r; reflexivity|].
  cbn [word_loop]; rewrite read_word_failed by exact Hf.
  rewrite IH by exact Hf; rewrite <- app_assoc; reflexivity.
Qed.

Lemma seekg_failed s off : failed s = true -> seekg s off = s.
Proof. intros H; unfold seekg; rewrite H; reflexivity. Qed.

Lemma read_values_failed s s' old :
  failed s = true -> failed s' = true ->
  fst (read_values s old) = s /\ snd (read_values s' old) = snd (read_values s old).
Proof. intros H H'; unfold read_values, read; rewrite H, H'; split; reflexivity. Qed.

Lemma keeps_failed_id : keeps_failed (fun st => st).
Proof. intros s cl _; split; reflexivity. Qed.

Lemma keeps_failed_compose f g :
  keeps_failed f -> keeps_failed g -> keeps_failed (fun st => g (f st)).
Proof.
  intros Hf Hg s cl Hs.
  destruct (Hf s cl Hs) as [Hf1 Hf2].
  destruct (f (s, cl)) as [s1 c1] eqn:E; cbn [fst snd] in *; subst s1.
  destruct (Hg s c1 Hs) as [Hg1 Hg2]; split; [exact Hg1|].
  intros s' Hs'; specialize (Hf2 s' Hs').
  destruct (Hf s' cl Hs') as [Hf1' _].
  destruct (f (s', cl)) as [s2 c2]; cbn [fst snd] in *; subst s2 c2.
  apply Hg2; exact Hs'.
Qed.

Lemma keeps_failed_fold {A} (f : A -> bstate -> bstate) l :
  (forall x, keeps_failed (f x)) -> keeps_failed (fun st => fold_left (fun st x => f x st) l st).
Proof.
  intros Hf; induction l as [|x l IH]; [exact keeps_failed_id|].
  exact (keeps_failed_compose (f x) _ (Hf x) IH).
Qed.

Lemma default_attribute_slot_keeps iv h i : keeps_failed (default_attribute_slot iv h i).
Proof.
  intros s cl Hs; unfold default_attribute_slot; rewrite (seekg_failed s _ Hs).
  destruct (read_values_failed s s iv Hs Hs) as [H1 _].
  destruct (read_values s iv) as [s1 v1] eqn:E1; cbn [fst] in H1; subst s1; cbn [fst snd].
  split; [reflexivity|]; intros s' Hs'; rewrite (seekg_failed s' _ Hs').
  destruct (read_values_failed s s' iv Hs Hs') as [_ H2]; rewrite E1 in H2.
  destruct (read_values s' iv) as [s2 v2]; cbn [snd] in H2; subst v2; reflexivity.
Qed.

Lemma float_loop_keeps iv n : forall hdr w, keeps_failed (float_loop iv n hdr w).
Proof.
  induction n as [|n IH]; intros hdr w; [exact keeps_failed_id|].
  intros s cl Hs; cbn [float_loop].
  destruct (read_values_failed s s iv Hs Hs) as [H1 _].
  destruct (read_values s iv) as [s1 v1] eqn:E1; cbn [fst] in H1; subst s1.
  destruct (IH hdr true s (cl ++ [nth 0 (pack_values v1) 0] ++ (if w then [] else [hdr])
              ++ [nth 1 (pack_values v1) 0; nth 2 (pack_values v1) 0]) Hs) as [H3 H4].
  split; [exact H3|]; intros s' Hs'.
  destruct (read_values_failed s s' iv Hs Hs') as [_ H2]; rewrite E1 in H2.
  destruct (read_values_failed s' s' iv Hs' Hs') as [H5 _].
  destruct (read_values s' iv) as [s2 v2]; cbn [fst snd] in H2, H5; subst v2 s2.
  apply H4; exact Hs'.
Qed.

Lemma word_loop_keeps n : keeps_failed (word_loop n).
Proof.
  intros s cl Hs; rewrite (word_loop_failed n s cl Hs); split; [reflexivity|].
  intros s' Hs'; rewrite (word_loop_failed n s' cl Hs'); reflexivity.
Qed.

Lemma SubmitInternalMemory_keeps iv off n id fl :
  keeps_failed (SubmitInternalMemory iv off n id fl).
Proof.
  intros s cl Hs; unfold SubmitInternalMemory.
  destruct (n =? 0); [split; reflexivity|].
  rewrite (seekg_failed s _ Hs).
  destruct fl.
  - destruct (float_loop_keeps iv (Z.to_nat (n / 4) - 1) (data_header id (n / 4 * 3 - 1))
                false s (cl ++ [0; Z.lor id 0xF0000]) Hs) as [H1 H2].
    split; [exact H1|]; intros s' Hs'; rewrite (seekg_failed s' _ Hs'); apply H2; exact Hs'.
  - rewrite (read_word_failed s 0 Hs).
    destruct (word_loop_keeps (Z.to_nat n - 1) s
                ((cl ++ [0; Z.lor id 0xF0000]) ++ [le32 (bytes32 0); data_header id (n - 1)])
                Hs) as [H1 H2].
    split; [exact H1|]; intros s' Hs'; rewrite (seekg_failed s' _ Hs').
    rewrite (read_word_failed s' 0 Hs'); apply H2; exact Hs'.
Qed.

Lemma pica_loop_keeps iw n : forall regid, keeps_failed (pica_loop iw n regid).
Proof.
  induction n as [|n IH]; intros regid; [exact keeps_failed_id|].
  intros s cl Hs; cbn [pica_loop]; rewrite (read_word_failed s iw Hs).
  destruct (IH (regid + 1) s
              (if pica_register_state_mask regid =? 0 then cl
               else cl ++ [le32 (bytes32 iw);
                           Z.lor regid (Z.shiftl (pica_register_state_mask regid) 16)]) Hs)
    as [H1 H2].
  split; [exact H1|]; intros s' Hs'; rewrite (read_word_failed s' iw Hs'); apply H2; exact Hs'.
Qed.

Lemma pica_registers_load_keeps iw h : keeps_failed (pica_registers_load iw h).
Proof.
  intros s cl Hs; unfold pica_registers_load; rewrite (seekg_failed s _ Hs).
  destruct (pica_loop_keeps iw (Z.to_nat (Z.min pica_register_state_mask_size
                                                 (pica_registers_size h))) 0 s cl Hs) as [H1 H2].
  split; [exact H1|]; intros s' Hs'; rewrite (seekg_failed s' _ Hs'); apply H2; exact Hs'.
Qed.

(** On a failed stream, the construction of the initial-state command list
    leaves the stream failed and builds the same words whatever the file:
    they come from the buffers' previous contents only. *)
Lemma initial_commands_failed iv iw h s s' :
  failed s = true -> failed s' = true ->
  fst (initial_commands iv iw h s) = s /\
  snd (initial_commands iv iw h s') = snd (initial_commands iv iw h s).
Proof.
  intros Hs Hs'.
  assert (K : keeps_failed (fun st =>
    pica_registers_load iw h
      (SubmitInternalMemory iv (vs_float_uniforms h) (vs_float_uniforms_size h) 0x2c0 true
      (SubmitInternalMemory iv (vs_swizzle_data h) (vs_swizzle_data_size h) 0x2d5 false
      (SubmitInternalMemory iv (vs_program_binary h) (vs_program_binary_size h) 0x2cb false
      (SubmitInternalMemory iv (gs_float_uniforms h) (gs_float_uniforms_size h) 0x290 true
      (SubmitInternalMemory iv (gs_swizzle_data h) (gs_swizzle_data_size h) 0x2a5 false
      (SubmitInternalMemory iv (gs_program_binary h) (gs_program_binary_size h) 0x29b false
      (default_attributes_loop iv h st))))))))).
  { apply (keeps_failed_compose _ (pica_registers_load iw h));
      [| apply pica_registers_load_keeps].
    do 6 (apply (keeps_failed_compose _ (SubmitInternalMemory iv _ _ _ _));
            [| apply SubmitInternalMemory_keeps]).
    unfold default_attributes_loop; apply keeps_failed_fold.
    intros x; apply default_attribute_slot_keeps. }
  destruct (K s [] Hs) as [H1 H2]; split; [exact H1 | exact (H2 s' Hs')].
Qed.

Lemma read_records_good esz n : forall d p,
  0 <= p ->
  snd (read_records esz n {| data := d; pos := p; failed := false |}) =
    map (fun k => overwrite (repeat 0 esz) (firstn esz (skipn (Z.to_nat p + k * esz) d)))
        (seq 0 n).
Proof.
  induction n as [|n IH]; intros d p Hp; [reflexivity|].
  cbn [read_records]; unfold read at 1; cbn [failed pos data].
  cbn [seq map]; rewrite <- seq_shift, map_map, Nat.mul_0_l, Nat.add_0_r.
  destruct (Nat.leb_spec esz (length (skipn (Z.to_nat p) d))) as [Hle | Hgt].
  - specialize (IH d (p + Z.of_nat esz) ltac:(lia)).
    destruct (read_records esz n _) as [s2 rest]; cbn [snd] in *; subst rest.
    f_equal.
    apply map_ext; intros k; do 3 f_equal.
    rewrite Z2Nat.inj_add, Nat2Z.id by lia; simpl; lia.
  - rewrite read_records_failed by reflexivity; cbn [snd].
    rewrite length_skipn in Hgt.
    rewrite firstn_all2 by (rewrite length_skipn; lia); f_equal.
    rewrite <- (map_const_seq (repeat 0 esz) 0 n).
    apply map_ext; intros k.
    rewrite skipn_all2, firstn_nil by lia; reflexivity.
Qed.

Lemma read_records_truncated esz n : forall d p,
  0 <= p -> (0 < esz)%nat -> (0 < n)%nat ->
  (length d < Z.to_nat p + n * esz)%nat ->
  failed (fst (read_records esz n {| data := d; pos := p; failed := false |})) = true.
Proof.
  induction n as [|n IH]; intros d p Hp Hesz Hn Hl; [lia|].
  cbn [read_records]; unfold read at 1; cbn [failed pos data].
  destruct (Nat.leb_spec esz (length (skipn (Z.to_nat p) d))) as [Hle | Hgt].
  - rewrite length_skipn in Hle.
    destruct n as [|n]; [lia|].
    specialize (IH d (p + Z.of_nat esz) ltac:(lia) Hesz ltac:(lia)
                  ltac:(rewrite Z2Nat.inj_add, Nat2Z.id by lia; lia)).
    destruct (read_records esz (S n) _) as [s2 rest]; exact IH.
  - rewrite read_records_failed by reflexivity; reflexivity.
Qed.

(** C3 (as amended): reading the stream never fails: it always yields
    [stream_size] records of [elem_size] bytes. Record [k] holds the bytes
    of the file from [stream_offset + k * elem_size] on, as far as the file
    goes, and zeros past them (as the vector created it). When the file
    ends at or before the stream offset, every record is all zeros. When
    the file ends before the last record, the stream is left failed: every
    later seek and read of the initial-state construction does nothing, so
    its words come from the previous contents of the buffers alone (they
    are those built on an empty failed stream), and playback starts with
    these records as soon as the padding loop ends; no truncation error
    is raised. *)
Theorem stream_truncation_unchecked esz h s :
  length (snd (load_stream esz h s)) = Z.to_nat (stream_size h) /\
  Forall (fun r => length r = esz) (snd (load_stream esz h s)) /\
  (failed s = false -> (length (data s) <= Z.to_nat (stream_offset h))%nat ->
   (0 < esz)%nat -> (0 < Z.to_nat (stream_size h))%nat ->
   snd (load_stream esz h s) = repeat (repeat 0 esz) (Z.to_nat (stream_size h)) /\
   failed (fst (load_stream esz h s)) = true) /\
  (failed s = false -> 0 <= stream_offset h ->
   snd (load_stream esz h s) =
     map (fun k => overwrite (repeat 0 esz)
                     (firstn esz (skipn (Z.to_nat (stream_offset h) + k * esz) (data s))))
         (seq 0 (Z.to_nat (stream_size h)))) /\
  (failed s = false -> 0 <= stream_offset h ->
   (0 < esz)%nat -> (0 < Z.to_nat (stream_size h))%nat ->
   (length (data s) < Z.to_nat (stream_offset h) + Z.to_nat (stream_size h) * esz)%nat ->
   failed (fst (load_stream esz h s)) = true /\
   forall iv iw fuel,
     prologue esz iv iw fuel h s =
       match build_command_list iv iw fuel h {| data := []; pos := 0; failed := true |} with
       | Some cl => Some (snd (load_stream esz h s), cl)
       | None => None
       end).
Proof.
  split; [apply read_records_shape|]; split; [apply read_records_shape|].
  split; [|split].
  2: { intros Hf Hp; unfold load_stream, seekg; rewrite Hf; apply read_records_good; exact Hp. }
  2: { intros Hf Hp Hesz Hn Hl.
       assert (Hfail : failed (fst (load_stream esz h s)) = true).
       { unfold load_stream, seekg; rewrite Hf; apply read_records_truncated; assumption. }
       split; [exact Hfail|]; intros iv iw fuel.
       unfold prologue; destruct (load_stream esz h s) as [s1 recs]; cbn [fst snd] in *.
       unfold build_command_list.
       destruct (initial_commands_failed iv iw h s1 {| data := []; pos := 0; failed := true |}
                   Hfail eq_refl) as [_ ->].
       reflexivity. }
  intros Hf Hlen Hesz Hn; unfold load_stream.
  destruct (Z.to_nat (stream_size h)) as [|n]; [lia|].
  unfold seekg; rewrite Hf; cbn [read_records].
  assert (Hrd : read {| data := data s; pos := stream_offset h; failed := false |} esz =
                ({| data := data s; pos := Z.of_nat (length (data s)); failed := true |}, [])).
  { unfold read; cbn [failed data pos].
    rewrite skipn_all2 by lia.
    destruct (Nat.leb_spec esz (length (@nil Z))); [simpl in *; lia|reflexivity]. }
  rewrite Hrd, read_records_failed by reflexivity; split; reflexivity.
Qed.

(** C3 counterexample: a file that ends right after a 64-byte header,
    with [stream_size = 1] and every initial-state size 0: no error; the
    stream holds one all-zero record (here of 24 bytes), the command list
    is empty, and playback starts. *)
Lemma truncated_trace_plays :
  prologue 24 [] 0 1 (mk_header 64 1 0 0)
           {| data := repeat 0 64; pos := 64; failed := false |} =
    Some ([repeat 0 24], []).
Proof. reflexivity. Qed.

(** Witness for C3: the same truncated file; and a file with 3 bytes of a
    2-record stream of 4-byte records after a 64-byte header: the first
    record is those bytes and a zero, the second all zeros, and playback
    starts with the empty command list. *)
Lemma stream_truncation_unchecked_witness :
  snd (load_stream 24 (mk_header 64 1 0 0)
         {| data := repeat 0 64; pos := 64; failed := false |}) = [repeat 0 24] /\
  prologue 4 [] 0 1 (mk_header 64 2 0 0)
           {| data := repeat 0 64 ++ [1; 2; 3]; pos := 64; failed := false |} =
    Some ([[1; 2; 3; 0]; [0; 0; 0; 0]], []).
Proof.
  split.
  - destruct (stream_truncation_unchecked 24 (mk_header 64 1 0 0)
                {| data := repeat 0 64; pos := 64; failed := false |}) as (_ & _ & H & _).
    destruct H as [H _]; [reflexivity | simpl; lia | lia | simpl; lia |].
    exact H.
  - destruct (stream_truncation_unchecked 4 (mk_header 64 2 0 0)
                {| data := repeat 0 64 ++ [1; 2; 3]; pos := 64; failed := false |})
      as (_ & _ & _ & Hr & Ht).
    destruct Ht as [_ Ht]; [reflexivity | vm_compute; discriminate | lia
                           | vm_compute; lia | vm_compute; lia |].
    rewrite Ht, Hr by (first [reflexivity | vm_compute; discriminate]).
    vm_compute; reflexivity.
Defined.


(** * Further properties of the program *)

(** ** Address translation *)





(** The MPCore internal memory and the AXI WRAM are regions of the memory
    map that the translation does not handle: an address in either of them
    prints the diagnostic, closes the network channel and terminates the
    process. *)
Theorem unmapped_regions_terminate pa :
  in_range MPCORE_RAM_PADDR MPCORE_RAM_PADDR_END pa = true \/
  in_range AXI_WRAM_PADDR AXI_WRAM_PADDR_END pa = true ->
  PhysicalToVirtualAddress pa = ([EvPrint MsgUnknownPaddr; EvNetworkExit], inr HTerminate).
Proof.
  rewrite !in_range_true; intros H.
  unfold PhysicalToVirtualAddress; split_ifs; unfold_map; try lia; reflexivity.
Qed.

(** Translation is one-to-one except for one overlap: the virtual window
    of the 16 MiB IO area contains that of VRAM, so the IO address
    [pa - 0x07B00000] translates to the same virtual address as the VRAM
    address [pa]; no other two distinct addresses translate to the same
    address. *)
Theorem translate_io_aliases_vram :
  (forall pa, VRAM_PADDR <= pa < VRAM_PADDR_END ->
     PhysicalToVirtualAddress (pa - 0x07B00000) = PhysicalToVirtualAddress pa) /\
  (forall pa1 pa2 v,
     PhysicalToVirtualAddress pa1 = ret v -> PhysicalToVirtualAddress pa2 = ret v ->
     pa1 <> pa2 ->
     (VRAM_PADDR <= pa1 < VRAM_PADDR_END /\ pa2 = pa1 - 0x07B00000) \/
     (VRAM_PADDR <= pa2 < VRAM_PADDR_END /\ pa1 = pa2 - 0x07B00000)).
Proof.
  split.
  - intros pa H; unfold PhysicalToVirtualAddress; split_ifs; unfold_map; try lia.
    f_equal; f_equal; lia.
  - intros pa1 pa2 v H1 H2 Hne.
    apply translate_cases in H1; apply translate_cases in H2; unfold_map.
    destruct H1 as [[? ?]|[[? ?]|[[? ?]|[[? ?]|[? ?]]]]];
    destruct H2 as [[? ?]|[[? ?]|[[? ?]|[[? ?]|[? ?]]]]]; subst; lia.
Qed.

Lemma unmapped_regions_terminate_witness :
  PhysicalToVirtualAddress 0x1FF80000 = ([EvPrint MsgUnknownPaddr; EvNetworkExit], inr HTerminate).
Proof. apply unmapped_regions_terminate; right; reflexivity. Defined.

Lemma translate_io_aliases_vram_witness :
  PhysicalToVirtualAddress 0x10500000 = ret 0x1F000000 /\
  PhysicalToVirtualAddress 0x18000000 = ret 0x1F000000.
Proof.
  destruct translate_io_aliases_vram as [H _].
  split; [|reflexivity].
  change 0x10500000 with (0x18000000 - 0x07B00000).
  rewrite (H 0x18000000) by (unfold_map; lia); reflexivity.
Defined.

(** ** Register writes *)


(** A write of a known size to a register other than the command-list
    trigger and the operation-triggering registers prints one line and
    makes exactly one hardware write: the low 32 bits of the value, at the
    register's offset in the IO window, with the byte count of the size
    code. No address is translated and no register is read back. *)
Theorem plain_register_write rd pa s v :
  size_bytes s <> 0 -> is_trigger_register pa = false ->
  register_write rd pa s v =
    ([EvPrint MsgWriting; EvWriteHWRegs (hw_reg pa) (Z.land v 0xFFFFFFFF) (size_bytes s)],
     inl tt).
Proof.
  intros Hs Ht; unfold register_write.
  rewrite (register_write_print s Hs), Ht.
  destruct (Z.eqb_spec pa 0x104018F0) as [->|Hf]; [discriminate Ht|].
  reflexivity.
Qed.

Lemma plain_register_write_witness :
  register_write (fun _ => 0) 0x10400010 SIZE_64 0x123456789 =
    ([EvPrint MsgWriting; EvWriteHWRegs (hw_reg 0x10400010) 0x23456789 8], inl tt).
Proof. apply plain_register_write; [discriminate | reflexivity]. Defined.


(** A write to the command-list trigger register 0x104018F0 is never
    written to the hardware: the engine reads the command-list size and
    address registers and submits the command list at the translated
    address [8 * address] with that size, passing the written value
    truncated to the u8 [flags] parameter (the value modulo 256), then
    polls 0x104018F0. *)
Theorem command_list_trigger_write rd s v va :
  size_bytes s <> 0 ->
  PhysicalToVirtualAddress (u32 (rd 1%nat * 8)) = ret va ->
  register_write rd 0x104018F0 s v =
    (let (l, r) := poll (hw_reg 0x104018F0) rd 2 in
     ([EvPrint MsgWriting; EvReadHWRegs (hw_reg 0x104018E0); EvReadHWRegs (hw_reg 0x104018E8);
       EvProcessCommandList va (rd 0%nat) (u8 v); EvPrint MsgWaiting] ++ l, r)) /\
  (forall e, In e (fst (register_write rd 0x104018F0 s v)) ->
   forall reg d n, e <> EvWriteHWRegs reg d n).
Proof.
  intros Hs Hva.
  assert (Heq : register_write rd 0x104018F0 s v =
    (let (l, r) := poll (hw_reg 0x104018F0) rd 2 in
     ([EvPrint MsgWriting; EvReadHWRegs (hw_reg 0x104018E0); EvReadHWRegs (hw_reg 0x104018E8);
       EvProcessCommandList va (rd 0%nat) (u8 v); EvPrint MsgWaiting] ++ l, r))).
  { unfold register_write; rewrite (register_write_print s Hs).
    cbn [bind emit Z.eqb Pos.eqb]; rewrite Hva; cbn [bind emit ret is_trigger_register Z.eqb
      Pos.eqb orb].
    destruct (poll (hw_reg 0x104018F0) rd 2); reflexivity. }
  split; [exact Heq|].
  rewrite Heq; unfold poll.
  destruct (poll_loop_shape 100 (hw_reg 0x104018F0) rd 2) as (m & _ & Hp & _).
  rewrite Hp; cbn [fst]; intros e He reg d n Heq'; subst e.
  apply in_app_or in He; destruct He as [He | He].
  - simpl in He; repeat (destruct He as [He | He]; [discriminate He|]); destruct He.
  - apply poll_trace_events in He; destruct He; discriminate.
Qed.

Lemma command_list_trigger_write_witness :
  register_write (fun k => match k with 0%nat => 0x40 | 1%nat => 0x4000000 | _ => 1 end)
                 0x104018F0 SIZE_32 0x101 =
    ([EvPrint MsgWriting; EvReadHWRegs (hw_reg 0x104018E0); EvReadHWRegs (hw_reg 0x104018E8);
      EvProcessCommandList 0x14000000 0x40 1; EvPrint MsgWaiting;
      EvReadHWRegs (hw_reg 0x104018F0)], inl tt).
Proof.
  destruct (command_list_trigger_write
              (fun k => match k with 0%nat => 0x40 | 1%nat => 0x4000000 | _ => 1 end)
              SIZE_32 0x101 0x14000000 ltac:(discriminate) eq_refl) as [H _].
  rewrite H; reflexivity.
Defined.

(** ** Memory loads outside VRAM *)

(** A memory load to an address of main RAM, DSP memory or the IO area is
    one read of [size] bytes from the file offset straight to the
    translated address, followed by one cache flush of exactly that range;
    it is not split into chunks, whatever its size. *)
Theorem direct_memory_load off pa size lo hi d :
  first_region regions pa = Some (lo, hi, d) -> lo <> VRAM_PADDR ->
  memory_load off pa size =
    ([EvPrint MsgLoad; EvReadToMemory off (pa + d) size; EvFlush (pa + d) size], inl tt).
Proof.
  intros Hr Hlo.
  destruct (translate_in_region pa lo hi d Hr) as (_ & _ & Htr & Hnz).
  assert (Hv : in_range VRAM_PADDR VRAM_PADDR_END pa = false).
  { unfold regions, first_region in Hr.
    destruct (in_range VRAM_PADDR VRAM_PADDR_END pa); [|reflexivity].
    injection Hr as <- _ _; contradiction. }
  unfold memory_load; rewrite Hv, Htr; cbn [bind emit ret].
  destruct (Z.eqb_spec (pa + d) 0); [contradiction|].
  reflexivity.
Qed.

Lemma direct_memory_load_witness :
  memory_load 0x100 0x20001000 0x40 =
    ([EvPrint MsgLoad; EvReadToMemory 0x100 0x14001000 0x40; EvFlush 0x14001000 0x40], inl tt).
Proof.
  rewrite (direct_memory_load 0x100 0x20001000 0x40 FCRAM_PADDR FCRAM_PADDR_END
             (FCRAMStartVAddr - FCRAM_PADDR) eq_refl ltac:(discriminate)).
  reflexivity.
Defined.

(** ** The stream loop *)

Lemma bind_ret {A B} (a : A) (f : A -> M B) : bind (ret a) f = f a.
Proof. unfold bind, ret; destruct (f a); reflexivity. Qed.

Lemma bind_assoc {A B C} (m : M A) (f : A -> M B) (g : B -> M C) :
  bind (bind m f) g = bind m (fun x => bind (f x) g).
Proof.
  destruct m as [l [a | h]]; [|reflexivity]; cbn [bind].
  destruct (f a) as [l1 [b | h1]]; cbn [bind].
  - destruct (g b) as [l2 r]; rewrite app_assoc; reflexivity.
  - reflexivity.
Qed.

Lemma run_stream_split key_start rds es1 : forall i es2,
  run_stream key_start rds i (es1 ++ es2) =
  (run_stream key_start rds i es1 ;;; run_stream key_start rds (i + length es1) es2).
Proof.
  induction es1 as [|e es1 IH]; intros i es2.
  - cbn [app run_stream length]; rewrite bind_ret, Nat.add_0_r; reflexivity.
  - cbn [app run_stream length]; destruct (key_start i); [reflexivity|].
    rewrite IH, bind_assoc, Nat.add_succ_r; reflexivity.
Qed.

(** After a prefix of the stream has been played to completion, an element
    of unknown type ends the session after one diagnostic, and START held
    before an element ends it at once: in both cases nothing after that
    point of the stream is processed. *)
Theorem stream_ends_at_unknown_or_start key_start rds i es1 evs e t es2 :
  run_stream key_start rds i es1 = (evs, inl tt) ->
  (key_start (i + length es1)%nat = false ->
   run_stream key_start rds i (es1 ++ UnknownElement t :: es2) =
     (evs ++ [EvPrint MsgUnknownElement], inr HExit)) /\
  (key_start (i + length es1)%nat = true ->
   run_stream key_start rds i (es1 ++ e :: es2) = (evs, inr HExit)).
Proof.
  intros H1; split; intros Hk; rewrite run_stream_split, H1; cbn [bind run_stream];
    rewrite Hk; cbn; rewrite ?app_nil_r; reflexivity.
Qed.

Lemma stream_ends_at_unknown_or_start_witness :
  run_stream (fun _ => false) (fun _ _ => 0) 0 [FrameMarker; UnknownElement 7; FrameMarker] =
    ([EvPrint MsgReachedEndOfFrame; EvSwapBuffers; EvWaitVBlank; EvPrint MsgUnknownElement],
     inr HExit).
Proof.
  destruct (stream_ends_at_unknown_or_start (fun _ => false) (fun _ _ => 0) 0 [FrameMarker]
              [EvPrint MsgReachedEndOfFrame; EvSwapBuffers; EvWaitVBlank] FrameMarker 7
              [FrameMarker] eq_refl) as [H _].
  exact (H eq_refl).
Defined.

(** ** Reading words from the file *)

Lemma read_word_good s old :
  failed s = false -> 0 <= pos s -> (Z.to_nat (pos s) + 4 <= length (data s))%nat ->
  read_word s old =
    ({| data := data s; pos := pos s + 4; failed := false |}, file_word (data s) (pos s)).
Proof.
  intros Hf Hp Hl; unfold read_word, read; rewrite Hf.
  rewrite (proj2 (Nat.leb_le 4 _)) by (rewrite length_skipn; lia).
  f_equal; unfold overwrite, file_word.
  rewrite length_firstn, length_skipn.
  replace (Nat.min 4 (length (data s) - Z.to_nat (pos s))) with 4%nat by lia.
  cbn [bytes32 skipn]; rewrite app_nil_r.
  unfold le32; rewrite firstn_firstn; reflexivity.
Qed.


Lemma map_seq_succ (f : nat -> Z) n :
  map f (seq 1 n) = map (fun k => f (S k)) (seq 0 n).
Proof. rewrite <- seq_shift, map_map; reflexivity. Qed.

Lemma word_loop_good n : forall s cl,
  failed s = false -> 0 <= pos s ->
  (Z.to_nat (pos s) + 4 * n <= length (data s))%nat ->
  snd (word_loop n (s, cl)) =
    cl ++ map (fun k => file_word (data s) (pos s + 4 * Z.of_nat k)) (seq 0 n).
Proof.
  induction n as [|n IH]; intros s cl Hf Hp Hl; [simpl; rewrite app_nil_r; reflexivity|].
  cbn [word_loop]; rewrite read_word_good by (auto; lia).
  rewrite IH by (cbn [failed pos data]; first [reflexivity | lia | rewrite Z2Nat.inj_add by lia; simpl; lia]).
  cbn [data pos]; rewrite <- app_assoc; f_equal.
  cbn [seq map app]; rewrite Z.add_0_r; f_equal.
  rewrite map_seq_succ; apply map_ext; intros k; f_equal; lia.
Qed.


Lemma word_loop_length n : forall st,
  length (snd (word_loop n st)) = (length (snd st) + n)%nat.
Proof.
  induction n as [|n IH]; intros [s cl]; [simpl; lia|].
  cbn [word_loop]; destruct (read_word s 0) as [s' w].
  rewrite IH; cbn [snd]; rewrite length_app; simpl; lia.
Qed.

(** ** The raw-word submission *)

(** A raw-word submission of [n > 0] words appends [n + 3] words: [0],
    [id | 0xF0000], the first data word, the data command header with
    payload length [n - 1], then the other [n - 1] data words. On a good
    stream the data words are the consecutive little-endian words of the
    file at [file_offset]; on a failed stream (after a short read) every
    data word is 0. *)
Theorem raw_submission_contents iv off n id s cl :
  0 < n ->
  (failed s = false -> 0 <= off ->
   (Z.to_nat off + 4 * Z.to_nat n <= length (data s))%nat ->
   snd (SubmitInternalMemory iv off n id false (s, cl)) =
     cl ++ [0; Z.lor id 0xF0000; file_word (data s) off; data_header id (n - 1)]
        ++ map (fun k => file_word (data s) (off + 4 * Z.of_nat k)) (seq 1 (Z.to_nat n - 1))) /\
  (failed s = true ->
   snd (SubmitInternalMemory iv off n id false (s, cl)) =
     cl ++ [0; Z.lor id 0xF0000; 0; data_header id (n - 1)] ++ repeat 0 (Z.to_nat n - 1)).
Proof.
  intros Hn; unfold SubmitInternalMemory.
  destruct (Z.eqb_spec n 0) as [E|_]; [lia|].
  split.
  - intros Hf Ho Hl; unfold seekg; rewrite Hf.
    rewrite read_word_good by (cbn [failed pos data]; first [reflexivity | lia]).
    cbn [data pos].
    rewrite word_loop_good by (cbn [failed pos data]; first [reflexivity | lia]).
    cbn [data pos]; rewrite <- !app_assoc; f_equal; cbn [app]; do 4 f_equal.
    rewrite map_seq_succ; apply map_ext; intros k; f_equal; lia.
  - intros Hf; unfold seekg; rewrite Hf.
    rewrite read_word_failed by exact Hf.
    rewrite word_loop_failed by exact Hf; cbn [snd].
    rewrite <- !app_assoc; reflexivity.
Qed.

Lemma raw_submission_contents_witness :
  snd (SubmitInternalMemory [] 0 2 0x29b false
         ({| data := [1; 0; 0; 0; 2; 0; 0; 0]; pos := 0; failed := false |}, [])) =
    [0; 0xF029B; 1; data_header 0x29b 1; 2].
Proof.
  destruct (raw_submission_contents [] 0 2 0x29b
              {| data := [1; 0; 0; 0; 2; 0; 0; 0]; pos := 0; failed := false |} [])
    as [H _]; [lia|].
  rewrite H by (cbn; first [reflexivity | lia]); reflexivity.
Defined.

(** ** The register state mask *)


Lemma nodupb_NoDup l : nodupb l = true -> NoDup l.
Proof.
  induction l as [|x l IH]; intros H; [constructor|].
  cbn [nodupb] in H; apply andb_prop in H; destruct H as [H1 H2].
  constructor; [|exact (IH H2)].
  intros Hin; apply negb_true_iff in H1.
  assert (existsb (Z.eqb x) l = true) by (apply existsb_exists; exists x; split; [exact Hin | apply Z.eqb_refl]).
  congruence.
Qed.

Lemma mask_fold_in r l : forall acc,
  In (fold_left (fun (acc : Z) '(i, v) => if i =? r then v else acc) l acc) (acc :: map snd l).
Proof.
  induction l as [|[i v] l IH]; intros acc; [left; reflexivity|].
  cbn [fold_left map]; destruct (i =? r).
  - destruct (IH v) as [H | H]; [right; left; exact H | right; right; exact H].
  - destruct (IH acc) as [H | H]; [left; exact H | right; right; exact H].
Qed.

Lemma mask_fold_out r l : forall acc,
  ~ In r (map fst l) ->
  fold_left (fun (acc : Z) '(i, v) => if i =? r then v else acc) l acc = acc.
Proof.
  induction l as [|[i v] l IH]; intros acc Hn; [reflexivity|].
  cbn [fold_left map] in *; destruct (Z.eqb_spec i r) as [-> | _].
  - exfalso; apply Hn; left; reflexivity.
  - apply IH; intros H; apply Hn; right; exact H.
Qed.

(** Every write of the initialiser of [pica_register_state_mask] is inside
    the 0x300-entry array, writes 1, 7 or 0xF, and no entry is written
    twice; the array has 0x300 entries and [pica_register_state_mask r] is
    its entry [r], one of 0, 1, 7 and 0xF. Of the registers the
    initialiser's comments call active (0x22e and 0x22f, 0x2c1-0x2c8,
    0x2cc-0x2d4 and 0x2c6-0x2dd, read literally) all have mask 0 except
    0x2cb and 0x2d5, which the initialiser itself sets to 0xF: the comment
    "0x2c6-0x2dd are active" does not hold for them. *)
Theorem pica_register_state_mask_table :
  Forall (fun a => 0 <= fst a < pica_register_state_mask_size /\ In (snd a) [1; 7; 0xF])
         mask_assignments /\
  NoDup (map fst mask_assignments) /\
  length pica_register_state_mask_array = Z.to_nat pica_register_state_mask_size /\
  (forall r, 0 <= r < pica_register_state_mask_size ->
     pica_register_state_mask r = nth (Z.to_nat r) pica_register_state_mask_array 0 /\
     In (pica_register_state_mask r) [0; 1; 7; 0xF]) /\
  (forall r, In r active_registers ->
     (pica_register_state_mask r = 0 <-> r <> 0x2cb /\ r <> 0x2d5)) /\
  pica_register_state_mask 0x2cb = 0xF /\ pica_register_state_mask 0x2d5 = 0xF.
Proof.
  assert (Hall : Forall (fun a => 0 <= fst a < pica_register_state_mask_size /\
                                  In (snd a) [1; 7; 0xF]) mask_assignments).
  { apply Forall_forall; intros a Ha.
    assert (Hb : forallb (fun a => (0 <=? fst a) && (fst a <? pica_register_state_mask_size) &&
                                   ((snd a =? 1) || (snd a =? 7) || (snd a =? 0xF)))
                         mask_assignments = true) by (vm_compute; reflexivity).
    rewrite forallb_forall in Hb; specialize (Hb a Ha).
    rewrite !andb_true_iff, !orb_true_iff, Z.leb_le, Z.ltb_lt, !Z.eqb_eq in Hb.
    destruct Hb as [Hr Hv]; split; [exact Hr|].
    destruct Hv as [[-> | ->] | ->]; simpl; tauto. }
  split; [exact Hall|]; split; [apply nodupb_NoDup; vm_compute; reflexivity|].
  split; [vm_compute; reflexivity|].
  split; [|split; [|split; vm_compute; reflexivity]].
  - intros r Hr; split.
    + assert (Hb : forallb (fun r => pica_register_state_mask r =?
                                     nth (Z.to_nat r) pica_register_state_mask_array 0)
                           (zseq (Z.to_nat pica_register_state_mask_size)) = true)
        by (vm_compute; reflexivity).
      rewrite forallb_forall in Hb; apply Z.eqb_eq, Hb.
      unfold zseq; apply in_map_iff; exists (Z.to_nat r); split; [apply Z2Nat.id; lia|].
      apply in_seq; unfold pica_register_state_mask_size in *; lia.
    + unfold pica_register_state_mask.
      destruct (mask_fold_in r mask_assignments 0) as [<- | H]; [left; reflexivity|].
      apply in_map_iff in H; destruct H as [a [<- Ha]].
      rewrite Forall_forall in Hall; destruct (Hall a Ha) as [_ Hv]; right; exact Hv.
  - intros r Hr.
    assert (Hb : forallb (fun r => Bool.eqb (pica_register_state_mask r =? 0)
                                            (negb ((r =? 0x2cb) || (r =? 0x2d5))))
                         active_registers = true)
      by (vm_compute; reflexivity).
    rewrite forallb_forall in Hb; specialize (Hb r Hr).
    apply Bool.eqb_prop in Hb.
    destruct (Z.eqb_spec (pica_register_state_mask r) 0) as [E | E];
      destruct (Z.eqb_spec r 0x2cb); destruct (Z.eqb_spec r 0x2d5);
      cbn in Hb; try discriminate Hb; split; intros; try tauto; lia.
Qed.

(** ** The register snapshot *)

Lemma zrange_S a n : zrange a (S n) = a :: zrange (a + 1) n.
Proof.
  unfold zrange; cbn [seq map]; rewrite Z.add_0_r; f_equal.
  rewrite <- seq_shift, map_map; apply map_ext; intros k; lia.
Qed.

Lemma zseq_zrange n : zseq n = zrange 0 n.
Proof. unfold zseq, zrange; apply map_ext; intros k; lia. Qed.


Lemma pica_loop_good iw n : forall regid s cl,
  failed s = false -> 0 <= pos s ->
  (Z.to_nat (pos s) + 4 * n <= length (data s))%nat ->
  snd (pica_loop iw n regid (s, cl)) = cl ++ snapshot_words (data s) (pos s) regid n.
Proof.
  induction n as [|n IH]; intros regid s cl Hf Hp Hl.
  - unfold snapshot_words, zrange; simpl; rewrite app_nil_r; reflexivity.
  - cbn [pica_loop]; rewrite read_word_good by (auto; lia).
    rewrite IH by (cbn [failed pos data]; first [reflexivity | lia | rewrite Z2Nat.inj_add by lia; simpl; lia]).
    cbn [data pos]; unfold snapshot_words; rewrite zrange_S; cbn [flat_map].
    rewrite Z.sub_diag, Z.mul_0_r, Z.add_0_r.
    replace (flat_map _ (zrange (regid + 1) n)) with
      (flat_map (fun r => let m := pica_register_state_mask r in
                          if m =? 0 then []
                          else [file_word (data s) (pos s + 4 * (r - regid));
                                Z.lor r (Z.shiftl m 16)]) (zrange (regid + 1) n))
      by (apply flat_map_ext; intros r; cbv zeta;
          destruct (pica_register_state_mask r =? 0); [reflexivity|]; f_equal; f_equal; lia).
    destruct (pica_register_state_mask regid =? 0); rewrite ?app_assoc, ?app_nil_r; reflexivity.
Qed.

Lemma pica_loop_length iw n : forall regid st,
  length (snd (pica_loop iw n regid st)) =
  (length (snd st) + 2 * length (filter (fun r => negb (pica_register_state_mask r =? 0)%Z)
                                        (zrange regid n)))%nat.
Proof.
  induction n as [|n IH]; intros regid [s cl]; [simpl; lia|].
  cbn [pica_loop]; destruct (read_word s iw) as [s' w].
  rewrite IH, zrange_S; cbn [snd filter].
  destruct (pica_register_state_mask regid =? 0); cbn [negb length];
    rewrite ?length_app; simpl; lia.
Qed.

(** On a good stream holding the register area, the register snapshot
    reads the first [min(0x300, pica_registers_size)] words of the area
    and, for each register [r] among them whose state mask [m] is not 0,
    in increasing order, appends the word at [pica_registers + 4 * r] and
    the masked write command [r | m << 16]; registers with mask 0 are
    read and skipped, and registers from 0x300 on are never read. *)
Theorem pica_snapshot_contents iw h s cl :
  failed s = false -> 0 <= pica_registers h ->
  (Z.to_nat (pica_registers h)
   + 4 * Z.to_nat (Z.min pica_register_state_mask_size (pica_registers_size h))
   <= length (data s))%nat ->
  snd (pica_registers_load iw h (s, cl)) =
  cl ++ flat_map (fun r => let m := pica_register_state_mask r in
                           if m =? 0 then []
                           else [file_word (data s) (pica_registers h + 4 * r);
                                 Z.lor r (Z.shiftl m 16)])
                 (zseq (Z.to_nat (Z.min pica_register_state_mask_size (pica_registers_size h)))).
Proof.
  intros Hf Hp Hl; unfold pica_registers_load, seekg; rewrite Hf.
  rewrite pica_loop_good by (cbn [failed pos data]; first [reflexivity | lia]).
  cbn [data pos]; unfold snapshot_words.
  rewrite (zseq_zrange (Z.to_nat (Z.min pica_register_state_mask_size (pica_registers_size h)))).
  apply (f_equal (app cl)), flat_map_ext; intros r; cbv zeta;
  destruct (pica_register_state_mask r =? 0); [reflexivity|]; f_equal; f_equal; lia.
Qed.

Lemma pica_snapshot_contents_witness :
  snd (pica_registers_load 0
         {| stream_offset := 0; stream_size := 0; gpu_registers := 0; gpu_registers_size := 0;
            pica_registers := 0; pica_registers_size := 0x42;
            default_attributes := 0; default_attributes_size := 0;
            vs_program_binary := 0; vs_program_binary_size := 0;
            vs_swizzle_data := 0; vs_swizzle_data_size := 0;
            vs_float_uniforms := 0; vs_float_uniforms_size := 0;
            gs_program_binary := 0; gs_program_binary_size := 0;
            gs_swizzle_data := 0; gs_swizzle_data_size := 0;
            gs_float_uniforms := 0; gs_float_uniforms_size := 0 |}
         ({| data := map (fun k => Z.of_nat k mod 256) (seq 0 0x108); pos := 0; failed := false |},
          [])) =
    [0x03020100; 0x10040; 0x07060504; 0x70041].
Proof.
  rewrite pica_snapshot_contents by (cbn; first [reflexivity | lia]).
  vm_compute; reflexivity.
Defined.

(** ** Length of the initial-state command list *)

Lemma submit_length iv off n id fl st :
  0 <= n ->
  length (snd (SubmitInternalMemory iv off n id fl st)) =
  (length (snd st) + (if fl then float_words n else raw_words n))%nat.
Proof.
  intros Hn; destruct st as [s cl]; unfold SubmitInternalMemory, float_words, raw_words.
  destruct (Z.eqb_spec n 0) as [_ | Hn0]; [destruct fl; simpl; lia|].
  destruct fl.
  - rewrite float_loop_length; cbn [snd]; rewrite length_app; cbn [length].
    destruct (Nat.eqb_spec (Z.to_nat (n / 4) - 1) 0);
      destruct (Nat.leb_spec (Z.to_nat (n / 4)) 1); lia.
  - destruct (read_word (seekg s off) 0) as [s' w].
    rewrite word_loop_length; cbn [snd]; rewrite !length_app; cbn [length]; lia.
Qed.

Lemma pica_registers_load_length iw h st :
  length (snd (pica_registers_load iw h st)) =
  (length (snd st)
   + 2 * stateful_count (Z.to_nat (Z.min pica_register_state_mask_size (pica_registers_size h))))%nat.
Proof.
  destruct st as [s cl]; unfold pica_registers_load, stateful_count.
  rewrite pica_loop_length.
  rewrite (zseq_zrange (Z.to_nat (Z.min pica_register_state_mask_size (pica_registers_size h)))).
  reflexivity.
Qed.

(** The length of the command list before padding depends on the header
    alone, never on the file contents or on a failed read: 5 words per
    default attribute, [n + 3] words per raw-word submission of [n > 0]
    words, 2 words per float-uniform submission of 1 to 7 words and
    [3 * (n / 4)] words for [n >= 8], and 2 words per register of the
    snapshot with a non-zero state mask. *)
Theorem initial_commands_length iv iw h s :
  0 <= gs_program_binary_size h -> 0 <= gs_swizzle_data_size h ->
  0 <= gs_float_uniforms_size h -> 0 <= vs_program_binary_size h ->
  0 <= vs_swizzle_data_size h -> 0 <= vs_float_uniforms_size h ->
  length (snd (initial_commands iv iw h s)) =
  (5 * Z.to_nat (default_attributes_size h / 4)
   + raw_words (gs_program_binary_size h) + raw_words (gs_swizzle_data_size h)
   + float_words (gs_float_uniforms_size h)
   + raw_words (vs_program_binary_size h) + raw_words (vs_swizzle_data_size h)
   + float_words (vs_float_uniforms_size h)
   + 2 * stateful_count (Z.to_nat (Z.min pica_register_state_mask_size (pica_registers_size h))))%nat.
Proof.
  intros H1 H2 H3 H4 H5 H6; unfold initial_commands; cbv beta zeta.
  rewrite pica_registers_load_length, !submit_length by assumption.
  rewrite default_attributes_loop_length; cbn [snd length]; lia.
Qed.

Lemma initial_commands_length_witness :
  length (snd (initial_commands [] 0
    {| stream_offset := 0; stream_size := 0; gpu_registers := 0; gpu_registers_size := 0;
       pica_registers := 0; pica_registers_size := 0x300;
       default_attributes := 0; default_attributes_size := 12;
       vs_program_binary := 0; vs_program_binary_size := 10;
       vs_swizzle_data := 0; vs_swizzle_data_size := 1;
       vs_float_uniforms := 0; vs_float_uniforms_size := 16;
       gs_program_binary := 0; gs_program_binary_size := 0;
       gs_swizzle_data := 0; gs_swizzle_data_size := 0;
       gs_float_uniforms := 0; gs_float_uniforms_size := 4 |}
    {| data := []; pos := 0; failed := false |})) =
  (15 + 13 + 4 + 12 + 2 + 2 * stateful_count 0x300)%nat.
Proof.
  rewrite initial_commands_length by (cbn; lia).
  reflexivity.
Defined.

(** ** Padding *)

Lemma even_mod4 n : Nat.even n = true -> (n mod 4 = 0 \/ n mod 4 = 2)%nat.
Proof.
  intros H; apply Nat.even_spec in H; destruct H as [k ->].
  pose proof (Nat.div_mod_eq (2 * k) 4); pose proof (Nat.mod_upper_bound (2 * k) 4).
  lia.
Qed.

Lemma pad_loop_even_eq fuel cl :
  Nat.even (length cl) = true ->
  pad_loop (S (S fuel)) cl =
  Some (cl ++ if (length cl mod 4 =? 0)%nat then []
              else [nth (length cl - 2) cl 0; nth (length cl - 1) cl 0]).
Proof.
  intros He; destruct (even_mod4 _ He) as [H | H]; cbn [pad_loop];
    replace (Z.of_nat (length cl) mod 4) with (Z.of_nat (length cl mod 4))
      by (rewrite Nat2Z.inj_mod; reflexivity);
    rewrite H; cbn [Z.of_nat Z.eqb Nat.eqb].
  - rewrite app_nil_r; reflexivity.
  - assert (HL : (2 <= length cl)%nat).
    { destruct (length cl) as [|[|l]]; [discriminate | discriminate | lia]. }
    rewrite !length_app; cbn [length].
    replace (Z.of_nat (length cl + 1 + 1)) with (Z.of_nat (length cl) + 2) by lia.
    replace ((Z.of_nat (length cl) + 2) mod 4) with 0.
    + cbn [Z.eqb]; rewrite app_nth1 by lia.
      replace (length cl + 1 - 2)%nat with (length cl - 1)%nat by lia.
      rewrite <- app_assoc; reflexivity.
    + replace (Z.of_nat (length cl) + 2) with (Z.of_nat (length cl + 2)) by lia.
      replace (Z.of_nat (length cl + 2) mod 4) with (Z.of_nat ((length cl + 2) mod 4))
        by (rewrite Nat2Z.inj_mod; reflexivity).
      rewrite Nat.Div0.add_mod, H; reflexivity.
Qed.

(** On a list of even length the padding loop ends within two tests of
    its condition: a length that is a multiple of 4 is left as it is, and
    otherwise the last two words (the last command) are appended once
    more, which makes the length a multiple of 4. *)
Theorem pad_loop_even fuel cl :
  Nat.even (length cl) = true ->
  exists pad,
    pad_loop (S (S fuel)) cl = Some (cl ++ pad) /\
    pad = (if (length cl mod 4 =? 0)%nat then []
           else [nth (length cl - 2) cl 0; nth (length cl - 1) cl 0]) /\
    (length (cl ++ pad) mod 4 = 0)%nat.
Proof.
  intros He; eexists; split; [apply pad_loop_even_eq, He|]; split; [reflexivity|].
  rewrite length_app; destruct (even_mod4 _ He) as [H | H]; rewrite H; cbn [Nat.eqb length].
  - rewrite Nat.add_0_r; exact H.
  - rewrite Nat.Div0.add_mod, H; reflexivity.
Qed.

Lemma pad_loop_even_witness :
  pad_loop 2 [1; 2; 3; 4; 5; 6] = Some [1; 2; 3; 4; 5; 6; 5; 6].
Proof.
  destruct (pad_loop_even 0 [1; 2; 3; 4; 5; 6] eq_refl) as (pad & H & -> & _).
  exact H.
Defined.

(** With fuel for at least two tests of the padding condition, the
    initial-state command list is built, and playback can start, exactly
    when the list before padding has an even length; with an odd length the
    padding loop never ends. *)
Theorem command_list_built_iff_even iv iw fuel h s :
  (2 <= fuel)%nat ->
  ((exists cl, build_command_list iv iw fuel h s = Some cl) <->
   Nat.even (length (snd (initial_commands iv iw h s))) = true).
Proof.
  intros Hf; unfold build_command_list.
  destruct fuel as [|[|fuel]]; [lia | lia|].
  destruct (Nat.even (length (snd (initial_commands iv iw h s)))) eqn:E.
  - split; [reflexivity|]; intros _; eexists; apply pad_loop_even_eq, E.
  - split; [|discriminate]; intros [cl Hcl].
    rewrite pad_loop_odd in Hcl; [discriminate|].
    rewrite <- Nat.negb_even, E; reflexivity.
Qed.

Lemma command_list_built_iff_even_witness :
  exists cl, build_command_list [] 0 2 (mk_header 0 0 0 8)
               {| data := []; pos := 0; failed := false |} = Some cl.
Proof.
  apply (command_list_built_iff_even [] 0 2 (mk_header 0 0 0 8)
           {| data := []; pos := 0; failed := false |} (le_n 2)).
  vm_compute; reflexivity.
Defined.

(** ** Command-list parameters at the start of each pass *)

(** At the start of every playback pass the command-list size and address
    registers are written from the words at byte offsets 0x18E0 and 0x18E8
    of the GPU register area of the file. Nothing checks that the area is
    that large: when [gpu_registers_size] is at most 0x63A words, one of the
    two indexes is past the end of [gpu_regs] (undefined behaviour). *)
Theorem command_list_parameters_from_gpu_registers h s :
  (command_list_parameters h s = None <-> (Z.to_nat (gpu_registers_size h) <= 1594)%nat) /\
  (failed s = false -> 0 <= gpu_registers h ->
   (Z.to_nat (gpu_registers h) + 4 * Z.to_nat (gpu_registers_size h) <= length (data s))%nat ->
   (1594 < Z.to_nat (gpu_registers_size h))%nat ->
   exists s', command_list_parameters h s =
     Some (s', [EvWriteHWRegs (hw_reg 0x104018E0) (file_word (data s) (gpu_registers h + 0x18E0)) 4;
                EvWriteHWRegs (hw_reg 0x104018E8) (file_word (data s) (gpu_registers h + 0x18E8)) 4])).
Proof.
  unfold command_list_parameters, load_gpu_regs.
  change (Z.to_nat (0x18E0 / 4)) with 1592%nat; change (Z.to_nat (0x18E8 / 4)) with 1594%nat.
  pose proof (word_loop_length (Z.to_nat (gpu_registers_size h)) (seekg s (gpu_registers h), []))
    as Hlen.
  split.
  - destruct (word_loop (Z.to_nat (gpu_registers_size h)) (seekg s (gpu_registers h), []))
      as [s' regs]; cbn [snd length] in Hlen.
    destruct (nth_error regs 1592) eqn:E1; destruct (nth_error regs 1594) eqn:E2.
    + split; [discriminate|]; intros H.
      assert (Hs : nth_error regs 1594 <> None) by congruence.
      apply nth_error_Some in Hs; lia.
    + split; [intros _|reflexivity]; apply nth_error_None in E2; lia.
    + split; [intros _|reflexivity]; apply nth_error_None in E1; lia.
    + split; [intros _|reflexivity]; apply nth_error_None in E1; lia.
  - intros Hf Hp Hl Hn.
    assert (Hw := word_loop_good (Z.to_nat (gpu_registers_size h)) (seekg s (gpu_registers h)) []).
    unfold seekg in Hw |- *; rewrite Hf in Hw |- *; cbn [failed pos data] in Hw.
    specialize (Hw eq_refl Hp Hl).
    destruct (word_loop (Z.to_nat (gpu_registers_size h))
                ({| data := data s; pos := gpu_registers h; failed := false |}, []))
      as [s' regs].
    cbn [snd app] in Hw; subst regs.
    rewrite !nth_error_map, !nth_error_seq.
    rewrite (proj2 (Nat.ltb_lt 1592 _)) by lia; rewrite (proj2 (Nat.ltb_lt 1594 _)) by lia.
    exists s'; reflexivity.
Qed.

Lemma command_list_parameters_from_gpu_registers_witness :
  command_list_parameters (mk_header 0 0 0 0) {| data := []; pos := 0; failed := false |} = None /\
  exists s',
    command_list_parameters
      {| stream_offset := 0; stream_size := 0;
         gpu_registers := 0; gpu_registers_size := 1595;
         pica_registers := 0; pica_registers_size := 0;
         default_attributes := 0; default_attributes_size := 0;
         vs_program_binary := 0; vs_program_binary_size := 0;
         vs_swizzle_data := 0; vs_swizzle_data_size := 0;
         vs_float_uniforms := 0; vs_float_uniforms_size := 0;
         gs_program_binary := 0; gs_program_binary_size := 0;
         gs_swizzle_data := 0; gs_swizzle_data_size := 0;
         gs_float_uniforms := 0; gs_float_uniforms_size := 0 |}
      {| data := map (fun k => Z.of_nat (k mod 256)) (seq 0 (Z.to_nat 6380)); pos := 0; failed := false |} =
    Some (s', [EvWriteHWRegs (hw_reg 0x104018E0) 0xE3E2E1E0 4;
               EvWriteHWRegs (hw_reg 0x104018E8) 0xEBEAE9E8 4]).
Proof.
  split.
  - apply (proj1 (command_list_parameters_from_gpu_registers (mk_header 0 0 0 0)
                    {| data := []; pos := 0; failed := false |})).
    cbn; lia.
  - match goal with
    | |- exists s', command_list_parameters ?h ?s = _ =>
        destruct (proj2 (command_list_parameters_from_gpu_registers h s)) as [s' Hs]
    end; [reflexivity | cbn; lia | vm_compute; lia | vm_compute; lia |].
    exists s'; rewrite Hs; vm_compute; reflexivity.
Defined.

(** ** The float-uniform submission *)

Lemma read_values_good s old :
  failed s = false -> 0 <= pos s -> (Z.to_nat (pos s) + 16 <= length (data s))%nat ->
  read_values s old =
    ({| data := data s; pos := pos s + 16; failed := false |}, source_values (data s) (pos s)).
Proof.
  intros Hf Hp Hlen.
  unfold read_values, read; rewrite Hf.
  rewrite (proj2 (Nat.leb_le 16 _)) by (rewrite length_skipn; lia).
  unfold overwrite, source_values.
  assert (Hl : length (firstn 16 (skipn (Z.to_nat (pos s)) (data s))) = 16%nat)
    by (rewrite length_firstn, length_skipn; lia).
  rewrite Hl.
  rewrite le32_app by lia.
  rewrite (le32_skipn_app 4) by lia.
  rewrite (le32_skipn_app 8) by lia.
  rewrite (le32_skipn_app 12) by lia.
  reflexivity.
Qed.

Lemma pack_values_nth v :
  [nth 0 (pack_values v) 0] ++ [nth 1 (pack_values v) 0; nth 2 (pack_values v) 0] = pack_values v.
Proof. destruct v as [[[v0 v1] v2] v3]; reflexivity. Qed.

Lemma flat_map_seq_succ (f : nat -> list Z) n :
  flat_map f (seq 1 n) = flat_map (fun g => f (S g)) (seq 0 n).
Proof. rewrite <- seq_shift, !flat_map_concat_map, map_map; reflexivity. Qed.

Lemma float_loop_written iv n hdr : forall s cl,
  failed s = false -> 0 <= pos s ->
  (Z.to_nat (pos s) + 16 * n <= length (data s))%nat ->
  snd (float_loop iv n hdr true (s, cl)) =
    cl ++ flat_map (fun g => pack_values (source_values (data s) (pos s + 16 * Z.of_nat g)))
                   (seq 0 n).
Proof.
  induction n as [|n IH]; intros s cl Hf Hp Hl; [simpl; rewrite app_nil_r; reflexivity|].
  cbn [float_loop]; rewrite read_values_good by (auto; lia).
  rewrite IH by (cbn [failed pos data]; first [reflexivity | lia | rewrite Z2Nat.inj_add by lia; simpl; lia]).
  cbn [data pos seq flat_map]; rewrite Z.add_0_r, app_nil_l, pack_values_nth.
  rewrite <- !app_assoc; f_equal; f_equal.
  rewrite flat_map_seq_succ; apply flat_map_ext; intros g; do 2 f_equal; lia.
Qed.

(** A float-uniform submission of [n] words with [q = n / 4 >= 2], on a
    good stream holding the area, appends [0] and [id | 0xF0000], then the
    first packed word of the 4-word group at [file_offset], the data
    command header with payload length [q * 3 - 1], the other two packed
    words of that group, and the packings of the groups at
    [file_offset + 16 * g] for [g = 1 .. q - 2]. The last group, at
    [file_offset + 16 * (q - 1)], is never read. *)
Theorem float_submission_contents iv off n id s cl :
  (2 <= Z.to_nat (n / 4))%nat -> failed s = false -> 0 <= off ->
  (Z.to_nat off + 16 * (Z.to_nat (n / 4) - 1) <= length (data s))%nat ->
  snd (SubmitInternalMemory iv off n id true (s, cl)) =
    cl ++ [0; Z.lor id 0xF0000]
       ++ [nth 0 (pack_values (source_values (data s) off)) 0;
           data_header id (n / 4 * 3 - 1);
           nth 1 (pack_values (source_values (data s) off)) 0;
           nth 2 (pack_values (source_values (data s) off)) 0]
       ++ flat_map (fun g => pack_values (source_values (data s) (off + 16 * Z.of_nat g)))
                   (seq 1 (Z.to_nat (n / 4) - 2)).
Proof.
  intros Hq Hf Ho Hl; unfold SubmitInternalMemory.
  destruct (Z.eqb_spec n 0) as [-> | _]; [cbn in Hq; lia|].
  unfold seekg; rewrite Hf.
  destruct (Z.to_nat (n / 4)) as [|[|q]] eqn:Eq; [lia | lia|].
  replace (S (S q) - 1)%nat with (S q) by lia; replace (S (S q) - 2)%nat with q by lia.
  cbn [float_loop]; rewrite read_values_good by (cbn [failed pos data]; first [reflexivity | lia]).
  rewrite float_loop_written by (cbn [failed pos data]; first [reflexivity | lia]).
  cbn [data pos]; rewrite <- !app_assoc; f_equal; cbn [app]; do 6 f_equal.
  rewrite flat_map_seq_succ; apply flat_map_ext; intros g; do 2 f_equal; lia.
Qed.

Lemma float_submission_contents_witness :
  snd (SubmitInternalMemory [] 0 12 0x2c0 true
         ({| data := map Z.of_nat (seq 1 32); pos := 0; failed := false |}, [])) =
    [0; 0xF02C0; 0x0F0E0D0B; data_header 0x2c0 8; 0x0A090706; 0x05030201;
     0x1F1E1D1B; 0x1A191716; 0x15131211].
Proof.
  rewrite float_submission_contents by (cbn; first [reflexivity | lia]).
  vm_compute; reflexivity.
Defined.
